(** * Papa Don't Preach product parser: model and verified properties

    Shallow embedding of [parser.py] and [clean_csv.py].

    Conventions of the embedding.
    - A Python [str] is the list of its Unicode code points ([list N]);
      ASCII literals of the source are written [u "..."].
    - The product record returned by [process_kiwi_data] is a Python dict
      with string keys: a [gmap string (list N)].
    - Text files are kept in a finite map from file names to their decoded
      text.  The output file is always opened with [encoding='utf-8-sig'],
      which strips the byte-order mark on reading and emits it on writing,
      and the links file with [encoding='utf-8']; the decoded text is what
      the program observes.
    - What the program takes from outside the repository (the HTML parser,
      the JSON parser, the network, the random UUID source, the Unicode
      digit table) is the interface [Externals]; every definition and
      theorem is parametric in it.
    - Exceptions are explicit.  Three of them are not caught where they
      arise: the HTML parser rejecting a page (parser.py 45 and 75), an
      exception of [requests.get] that is not a [RequestException]
      (parser.py 289), and the writer meeting a key that is no field name
      or a character that UTF-8 cannot encode (parser.py 397).  A function
      that such an exception can leave has a [result] or an [outcome].
    - Messages printed to the console and the pause between two downloads
      are left out, as is [js_to_json], which nothing calls. *)

From Stdlib Require Import NArith Ascii String List Bool Lia.
From stdpp Require Import base option list gmap strings.

Local Open Scope N_scope.
Local Open Scope list_scope.

(** ** Python strings *)

Abbreviation pystr := (list N).

Fixpoint u (s : string) : pystr :=
  match s with
  | EmptyString => []
  | String a s' => N_of_ascii a :: u s'
  end.

(** Truth value of a [str]: empty is false. *)
Definition truthy (s : pystr) : bool :=
  match s with [] => false | _ :: _ => true end.

(** [s.startswith(prefix)] *)
Fixpoint startswith (s prefix : pystr) {struct prefix} : bool :=
  match prefix, s with
  | [], _ => true
  | _ :: _, [] => false
  | p :: prefix', c :: s' => (c =? p) && startswith s' prefix'
  end.

(** [s.replace(old, new)]: leftmost non-overlapping occurrences.  [skip]
    counts the characters of a matched occurrence still to be dropped. *)
Fixpoint replace_from (old new s : pystr) (skip : nat) : pystr :=
  match s with
  | [] => []
  | c :: s' =>
      match skip with
      | S k => replace_from old new s' k
      | O => if startswith s old
             then new ++ replace_from old new s' (length old - 1)
             else c :: replace_from old new s' O
      end
  end.

Definition replace (s old new : pystr) : pystr :=
  match old with
  | [] => new ++ flat_map (fun c => c :: new) s
  | _ :: _ => replace_from old new s O
  end.

(** [sep.join(parts)] *)
Fixpoint join (sep : pystr) (parts : list pystr) : pystr :=
  match parts with
  | [] => []
  | [x] => x
  | x :: rest => x ++ sep ++ join sep rest
  end.

(** [x in l] for a list of strings *)
Definition contains (l : list pystr) (x : pystr) : bool :=
  bool_decide (x ∈ l).

(** [str.isspace] on one character (CPython's [Py_UNICODE_ISSPACE]); it is
    also the class [\s] of [re] on [str] patterns. *)
Definition isspace (c : N) : bool :=
  ((9 <=? c) && (c <=? 13)) || ((28 <=? c) && (c <=? 32))
  || (c =? 133) || (c =? 160) || (c =? 5760)
  || ((8192 <=? c) && (c <=? 8202))
  || (c =? 8232) || (c =? 8233) || (c =? 8239) || (c =? 8287) || (c =? 12288).

(** [s.strip()] *)
Fixpoint lstrip (s : pystr) : pystr :=
  match s with
  | c :: s' => if isspace c then lstrip s' else s
  | [] => []
  end.

Definition strip (s : pystr) : pystr := rev (lstrip (rev (lstrip s))).

(** The three characters named by the quote cleaning. *)
Definition DQUOTE : N := 34.        (* ASCII double quote *)
Definition APOSTROPHE : N := 39.    (* ASCII apostrophe *)
Definition RDQUOTE : N := 8221.     (* U+201D right double quotation mark *)
Definition LF : N := 10.
Definition CR : N := 13.

(** ** Record builder: images, sizes, article *)

Definition SITE_ORIGIN : pystr := u "https://www.papadontpreach.com".

(** The conditional the source repeats for each consumed image
    (parser.py 166-171, 179-182, 184-187, 193-196). *)
Definition absolute_url (img : pystr) : pystr :=
  if startswith img (u "//") then u "https:" ++ img
  else if startswith img (u "/") then SITE_ORIGIN ++ img
  else img.

(** [images[i]] under a length guard *)
Definition item (images : list pystr) (i : nat) : pystr := nth i images [].

Definition image2_of (images : list pystr) : pystr :=
  if (0 <? length images)%nat then absolute_url (item images 0) else [].

Definition ext_images_of (images : list pystr) : pystr :=
  if (3 <=? length images)%nat then
    absolute_url (item images 1) ++ u "," ++ absolute_url (item images 2)
  else if (length images =? 2)%nat then absolute_url (item images 1)
  else [].

(** A variant is the dict built at parser.py 118; [get] is [dict.get]. *)
Abbreviation variant := (gmap string pystr).

Definition get (d : gmap string pystr) (k : string) (dflt : pystr) : pystr :=
  default dflt (d !! k).

Definition sizes_step (sizes : list pystr) (v : variant) : list pystr :=
  let size := get v "public_title" [] in
  if truthy size && negb (contains sizes size) then sizes ++ [size] else sizes.

Definition sizes_of (variants : list variant) : list pystr :=
  fold_left sizes_step variants [].

Definition sizes_str_of (variants : list variant) : pystr :=
  let sizes := sizes_of variants in
  match sizes with [] => [] | _ :: _ => join (u ",") sizes end.

Definition article_of (variants : list variant) : pystr :=
  match variants with
  | [] => []
  | v :: _ => get v "sku" []
  end.

(** ** Regular expressions

    The patterns of the source are sequences of literal characters,
    quantified one-character classes and capture groups.  [mh] is the
    backtracking matcher of [re] restricted to that fragment: a greedy
    quantifier tries the longest repetition first, a lazy one the shortest,
    and the first alternative whose continuation matches wins. *)

Inductive atom : Type :=
  | Lit (c : N)                                   (* one literal character *)
  | Rep (cls : N -> bool) (plus greedy : bool)    (* cls* cls+ cls*? cls+? *)
  | Open                                          (* ( *)
  | Close.                                        (* ) *)

Abbreviation regex := (list atom).

(** Groups closed so far, and the text of the group being read. *)
Record captures : Type := Caps { closed : list pystr; current : option pystr }.

Definition no_captures : captures := Caps [] None.

Definition push (c : N) (st : captures) : captures :=
  Caps (closed st) (option_map (fun g => g ++ [c]) (current st)).

Definition open_group (st : captures) : captures := Caps (closed st) (Some []).

Definition close_group (st : captures) : captures :=
  Caps (closed st ++ [default [] (current st)]) None.

(** One quantified class, with the matcher [k] of the rest of the pattern:
    [enough] tells whether the repetitions read so far may already stop. *)
Fixpoint rep_loop (cls : N -> bool) (greedy : bool)
    (k : pystr -> captures -> option (captures * pystr))
    (s : pystr) (st : captures) (enough : bool) {struct s}
  : option (captures * pystr) :=
  let more :=
    match s with
    | x :: s' => if cls x then rep_loop cls greedy k s' (push x st) true else None
    | [] => None
    end in
  let stop := if enough then k s st else None in
  if greedy
  then match more with Some m => Some m | None => stop end
  else match stop with Some m => Some m | None => more end.

Fixpoint mh (r : regex) (s : pystr) (st : captures) {struct r}
  : option (captures * pystr) :=
  match r with
  | [] => Some (st, s)
  | Lit c :: r' =>
      match s with
      | x :: s' => if x =? c then mh r' s' (push x st) else None
      | [] => None
      end
  | Open :: r' => mh r' s (open_group st)
  | Close :: r' => mh r' s (close_group st)
  | Rep cls plus greedy :: r' => rep_loop cls greedy (mh r') s st (negb plus)
  end.

(** Leftmost match: the groups and the text after the match. *)
Fixpoint search_from (r : regex) (s : pystr) : option (list pystr * pystr) :=
  match mh r s no_captures with
  | Some (st, rest) => Some (closed st, rest)
  | None =>
      match s with
      | [] => None
      | _ :: s' => search_from r s'
      end
  end.

(** [re.search(r, s)]: the groups of the leftmost match. *)
Definition re_search (r : regex) (s : pystr) : option (list pystr) :=
  fst <$> search_from r s.

(** [m.group(i)], i >= 1 *)
Definition group (m : list pystr) (i : nat) : pystr := nth (i - 1) m [].

(** [re.findall(r, s)]: the groups of the successive non-overlapping
    matches.  A match that consumes nothing makes the scan advance by one
    character. *)
Fixpoint findall_fuel (fuel : nat) (r : regex) (s : pystr) : list (list pystr) :=
  match fuel with
  | O => []
  | S fuel' =>
      match search_from r s with
      | None => []
      | Some (gs, rest) =>
          let next := if (length rest <? length s)%nat then rest else tail s in
          gs :: match s with [] => [] | _ :: _ => findall_fuel fuel' r next end
      end
  end.

Definition re_findall (r : regex) (s : pystr) : list (list pystr) :=
  findall_fuel (S (length s)) r s.

Definition lit (s : string) : regex := map Lit (u s).

Definition any_char (c : N) : bool := true.               (* . with re.DOTALL *)
Definition dot (c : N) : bool := negb (c =? LF).          (* . *)
Definition not_dquote (c : N) : bool := negb (c =? DQUOTE).       (* [^Q], Q the double quote *)
Definition not_rparen (c : N) : bool := negb (c =? 41).           (* [^)] *)
Definition not_space (c : N) : bool := negb (isspace c).          (* [^\s] *)

Definition ws : atom := Rep isspace false true.                   (* \s* *)

(** KiwiSizing\.data\s*=\s*({.*?});  with re.DOTALL *)
Definition KIWI_RE : regex :=
  lit "KiwiSizing.data" ++ [ws] ++ lit "=" ++ [ws; Open] ++ lit "{"
  ++ [Rep any_char false false] ++ lit "}" ++ [Close] ++ lit ";".

(** saved from url=\([^)]+\)(https://[^\s]+) *)
Definition SAVED_URL_RE : regex :=
  lit "saved from url=(" ++ [Rep not_rparen true true] ++ lit ")" ++ [Open]
  ++ lit "https://" ++ [Rep not_space true true; Close].

(** key:\s*Q([^Q]+)Q  for key in product, title, vendor, type, where Q
    stands for the double quote character *)
Definition field_re (key : string) : regex :=
  lit key ++ lit ":" ++ [ws; Lit DQUOTE; Open; Rep not_dquote true true; Close; Lit DQUOTE].

(** key:\s*\[(.*?)\]  with re.DOTALL, for key in images, variants *)
Definition array_re (key : string) : regex :=
  lit key ++ lit ":" ++ [ws] ++ lit "[" ++ [Open; Rep any_char false false; Close] ++ lit "]".

(** Q([^Q]+)Q *)
Definition QUOTED_RE : regex :=
  [Lit DQUOTE; Open; Rep not_dquote true true; Close; Lit DQUOTE].

(** window\.SwymProductInfo\.product\s*=\s*({.*?});  with re.DOTALL *)
Definition SWYM_RE : regex :=
  lit "window.SwymProductInfo.product" ++ [ws] ++ lit "=" ++ [ws; Open] ++ lit "{"
  ++ [Rep any_char false false] ++ lit "}" ++ [Close] ++ lit ";".

(** ** What the program takes from outside the repository *)

(** The result of a call that an exception may leave: [Exn] is an exception
    that the callee does not catch. *)
Inductive result (A : Type) : Type :=
  | Ret (a : A)
  | Exn.

Arguments Ret {A} a.
Arguments Exn {A}.

(** What [requests.get] followed by [raise_for_status] and [.text] gives:
    the text of the page, a [RequestException], or an exception of another
    class, such as the [LocationParseError] of urllib3. *)
Inductive response : Type :=
  | Text (text : pystr)
  | RequestException
  | OtherException.

Class Externals : Type := {
  (** bs4 with the html.parser builder: [None] when the builder rejects the
      markup and bs4 raises [ParserRejectedMarkup] *)
  soup : Type;
  tag : Type;
  BeautifulSoup : pystr -> option soup;
  (** [soup.find(name, {attr: value})]: the first such element, if any *)
  soup_find : soup -> string -> string -> string -> option tag;
  (** the attribute of an element; [t.get(k, d)] is [default d (tag_get t k)] *)
  tag_get : tag -> string -> option pystr;
  (** [soup.get_text(separator=' ', strip=True)] *)
  get_text : soup -> pystr;
  (** json: [json_loads] is [None] when [json.loads] raises *)
  json : Type;
  json_loads : pystr -> option json;
  json_get : json -> string -> option json;
  json_str : json -> option pystr;
  json_truthy : json -> bool;
  (** [BeautifulSoup(v, 'html.parser').get_text(separator=' ', strip=True)]
      for a value [v] that is not a [str]; [None] when it raises *)
  markup_text : json -> option pystr;
  (** the decimal digits of the Unicode database: the class \d of [re] *)
  unicode_isdecimal : N -> bool;
  (** the state of the world outside the process: network and randomness *)
  world : Type;
  (** [str(uuid.uuid4())] *)
  uuid4 : world -> pystr * world;
  (** the statements in the [try] of [download_html] (parser.py 289-292) *)
  requests_get : pystr -> world -> response * world
}.

(** ** Field extractor and record builder (parser.py 42-267) *)

Abbreviation product_record := (gmap string pystr).

(** The mapping [kiwi_data] built by [extract_product_data_regex]: each key
    is present or absent; [d.get(k, dflt)] is [default dflt (field d)]. *)
Record kiwi_dict : Type := KiwiData {
  kd_product : option pystr;
  kd_title : option pystr;
  kd_vendor : option pystr;
  kd_type : option pystr;
  kd_images : option (list pystr);
  kd_variants : option (list variant)
}.

Definition FIELDNAMES : list string :=
  ["URL"; "ID"; "Name"; "Brand"; "Article"; "Gender"; "Image2"; "Ext Images";
   "Description"; "Sizes"; "Color"; "Category"; "ID2"; "Combine"].

(** [not product_url] for an optional string *)
Definition falsy (o : option pystr) : bool :=
  match o with
  | Some (_ :: _) => false
  | _ => true
  end.

(** backslash, slash *)
Definition ESCAPED_SLASH : pystr := [92; 47].

Section Extraction.
Context `{Externals}.

  (** \{Qid Q:\d+.*?Qpublic_title Q:Q([^Q]+)Q.*?Qsku Q:Q([^Q]+)Q
      without the blanks, Q the double quote character *)
Definition VARIANT_BLOCK_RE : regex :=
    lit "{" ++ [Lit DQUOTE] ++ lit "id" ++ [Lit DQUOTE] ++ lit ":"
    ++ [Rep unicode_isdecimal true true; Rep dot false false; Lit DQUOTE]
    ++ lit "public_title" ++ [Lit DQUOTE] ++ lit ":"
    ++ [Lit DQUOTE; Open; Rep not_dquote true true; Close; Lit DQUOTE;
        Rep dot false false; Lit DQUOTE]
    ++ lit "sku" ++ [Lit DQUOTE] ++ lit ":"
    ++ [Lit DQUOTE; Open; Rep not_dquote true true; Close; Lit DQUOTE].

  (** The page URL when the caller gave none (parser.py 130-140). *)
Definition page_url (html_content : pystr) (sp : soup) : pystr :=
    match re_search SAVED_URL_RE html_content with
    | Some url_match => group url_match 1
    | None =>
        match soup_find sp "link" "rel" "canonical" with
        | Some canonical => default [] (tag_get canonical "href")
        | None => []
        end
    end.

  (** parser.py 201-215; the statements are in a [try] whose bare [except]
      leaves [description] empty, also when the HTML parser rejects the
      markup of the description *)
Definition swym_description (html_content : pystr) : pystr :=
    match re_search SWYM_RE html_content with
    | Some swym_match =>
        let swym_data_str := replace (group swym_match 1) ESCAPED_SLASH (u "/") in
        match json_loads swym_data_str with
        | Some swym_data =>
            match json_get swym_data "description" with
            | Some description_html =>
                match json_str description_html with
                | Some s =>
                    if truthy s then
                      match BeautifulSoup s with
                      | Some description_soup => get_text description_soup
                      | None => []
                      end
                    else []
                | None =>
                    if json_truthy description_html
                    then default [] (markup_text description_html)
                    else []
                end
            | None => []
            end
        | None => []
        end
    | None => []
    end.

  (** [soup.find('meta', {attr: value})] followed by [.get('content', '')],
      keeping [description] when there is no such element *)
Definition meta_content (sp : soup) (attr value : string) (description : pystr)
    : pystr :=
    match soup_find sp "meta" attr value with
    | Some meta_desc => default [] (tag_get meta_desc "content")
    | None => description
    end.

  (** parser.py 200-227 *)
Definition description_of (html_content : pystr) (sp : soup) : pystr :=
    let description := swym_description html_content in
    let description :=
      if negb (truthy description)
      then meta_content sp "name" "description" description
      else description in
    let description :=
      if negb (truthy description)
      then meta_content sp "property" "og:description" description
      else description in
    description.

Definition process_kiwi_data (kiwi_data : kiwi_dict) (html_content : pystr)
      (sp : soup) (product_url : option pystr) (w : world)
    : product_record * world :=
    let product_url :=
      if falsy product_url then page_url html_content sp
      else default [] product_url in
    let title := default [] (kd_title kiwi_data) in
    let brand := default [] (kd_vendor kiwi_data) in
    let category := default [] (kd_type kiwi_data) in
    let product_id := default [] (kd_product kiwi_data) in
    let images := default [] (kd_images kiwi_data) in
    let image2 := image2_of images in
    let ext_images := ext_images_of images in
    let description := description_of html_content sp in
    let variants := default [] (kd_variants kiwi_data) in
    let sizes_str := sizes_str_of variants in
    let article := article_of variants in
    let '(id2, w') := uuid4 w in
    let color : pystr := [] in
    let gender : pystr := [] in
    (list_to_map
       [("URL", product_url); ("ID", product_id); ("Name", title);
        ("Brand", brand); ("Article", article); ("Gender", gender);
        ("Image2", image2); ("Ext Images", ext_images);
        ("Description", description); ("Sizes", sizes_str); ("Color", color);
        ("Category", category); ("ID2", id2); ("Combine", [])],
     w').

  (** The first group of a field pattern, when it matches. *)
Definition field_match (key : string) (html_content : pystr) : option pystr :=
    (fun m => group m 1) <$> re_search (field_re key) html_content.

Definition extract_images (html_content : pystr) : option (list pystr) :=
    match re_search (array_re "images") html_content with
    | Some images_match =>
        let images_str := group images_match 1 in
        let image_urls := map (fun m => group m 1) (re_findall QUOTED_RE images_str) in
        Some (map (fun url => replace url ESCAPED_SLASH (u "/")) image_urls)
    | None => None
    end.

Definition extract_variants (html_content : pystr) : list variant :=
    match re_search (array_re "variants") html_content with
    | Some variants_match =>
        let variants_str := group variants_match 1 in
        map (fun m => {[ "public_title" := group m 1; "sku" := group m 2 ]})
            (re_findall VARIANT_BLOCK_RE variants_str)
    | None => []
    end.

  (** parser.py 72-123: the page is parsed first (line 75), outside any
      [try]. *)
Definition extract_product_data_regex (html_content : pystr)
      (product_url : option pystr) (w : world)
    : result product_record * world :=
    match BeautifulSoup html_content with
    | None => (Exn, w)
    | Some sp =>
        let kiwi_data :=
          {| kd_product := field_match "product" html_content;
             kd_title := field_match "title" html_content;
             kd_vendor := field_match "vendor" html_content;
             kd_type := field_match "type" html_content;
             kd_images := extract_images html_content;
             kd_variants := Some (extract_variants html_content) |} in
        let '(product_data, w') :=
          process_kiwi_data kiwi_data html_content sp product_url w in
        (Ret product_data, w')
    end.

  (** parser.py 42-69: the page is parsed (line 45) before the data block
      is looked for (line 48).  The statements after the [return] at line 66
      are never run. *)
Definition extract_product_data (html_content : pystr)
      (product_url : option pystr) (w : world)
    : result (option product_record) * world :=
    match BeautifulSoup html_content with
    | None => (Exn, w)
    | Some sp =>
        match re_search KIWI_RE html_content with
        | None => (Ret None, w)
        | Some _ =>
            let product_url :=
              if falsy product_url then
                let product_url :=
                  (fun m => group m 1) <$> re_search SAVED_URL_RE html_content in
                if falsy product_url then
                  match soup_find sp "link" "rel" "canonical" with
                  | Some canonical => Some (default [] (tag_get canonical "href"))
                  | None => product_url
                  end
                else product_url
              else product_url in
            match extract_product_data_regex html_content product_url w with
            | (Ret product_data, w') => (Ret (Some product_data), w')
            | (Exn, w') => (Exn, w')
            end
        end
    end.

  (** [if not product_data.get('URL'): product_data['URL'] = url] *)
Definition ensure_url (url : pystr) (product_data : product_record)
    : product_record :=
    if falsy (product_data !! "URL") then <["URL" := url]> product_data
    else product_data.

  (** parser.py 283-295: only a [RequestException] is caught. *)
Definition download_html (url : pystr) (w : world)
    : result (option pystr) * world :=
    match requests_get url w with
    | (Text text, w') => (Ret (Some text), w')
    | (RequestException, w') => (Ret None, w')
    | (OtherException, w') => (Exn, w')
    end.

  (** parser.py 298-315: nothing is caught. *)
Definition parse_url (url : pystr) (w : world)
    : result (option product_record) * world :=
    match download_html url w with
    | (Exn, w1) => (Exn, w1)
    | (Ret html_content, w1) =>
        if falsy html_content then (Ret None, w1)
        else
          match extract_product_data (default [] html_content) (Some url) w1 with
          | (Exn, w2) => (Exn, w2)
          | (Ret product_data, w2) => (Ret (ensure_url url <$> product_data), w2)
          end
    end.

End Extraction.

(** ** Text files *)

Abbreviation filesystem := (gmap string pystr).

(** [os.path.exists] *)
Definition exists_file (fs : filesystem) (name : string) : bool :=
  bool_decide (is_Some (fs !! name)).

(** Reading in text mode with the default [newline=None]: a CR LF pair and
    a lone CR are both handed to the program as LF. *)
Fixpoint universal_newlines (s : pystr) : pystr :=
  match s with
  | [] => []
  | c :: s' =>
      if c =? CR then
        match s' with
        | c' :: s'' => if c' =? LF then LF :: universal_newlines s''
                       else LF :: universal_newlines s'
        | [] => [LF]
        end
      else c :: universal_newlines s'
  end.

(** The lines of a text, each with its terminating LF when it has one. *)
Fixpoint split_lines (s : pystr) : list pystr :=
  match s with
  | [] => []
  | c :: s' =>
      if c =? LF then [c] :: split_lines s'
      else match split_lines s' with
           | [] => [[c]]
           | line :: lines => (c :: line) :: lines
           end
  end.

(** [open(name, 'r', encoding='utf-8-sig')] then [f.readlines()] (also the
    lines of [for line in f]) *)
Definition readlines (content : pystr) : list pystr :=
  split_lines (universal_newlines content).

(** [f.writelines(lines)] on a file just opened with mode 'w', newline='' *)
Definition writelines (lines : list pystr) : pystr := concat lines.

(** ** Quote cleaning (parser.py 318-363, clean_csv.py 7-32) *)

(** The source applies three replacements; the first and the third both
    name the ASCII double quote. *)
Definition remove_quotes (value : pystr) : pystr :=
  replace (replace (replace value [DQUOTE] []) [APOSTROPHE] []) [DQUOTE] [].

(** A false [product_data] is returned as it is; for the empty dict that
    is also what the loop builds. *)
Definition clean_product_data (product_data : product_record) : product_record :=
  remove_quotes <$> product_data.

Definition clean_csv_file (output_file : string) (fs : filesystem) : filesystem :=
  if negb (exists_file fs output_file) then fs
  else
    let lines := readlines (default [] (fs !! output_file)) in
    let cleaned_lines :=
      map (fun line =>
             replace (replace (replace line [DQUOTE] []) [APOSTROPHE] []) [DQUOTE] [])
          lines in
    <[output_file := writelines cleaned_lines]> fs.

Definition clean_existing_csv (csv_file : string) (fs : filesystem) : filesystem :=
  if exists_file fs csv_file then clean_csv_file csv_file fs else fs.

(** The stand-alone script clean_csv.py. *)
Module CleanCsv.

Definition clean_csv_file (output_file : string) (fs : filesystem) : filesystem :=
    if negb (exists_file fs output_file) then fs
    else
      let lines := readlines (default [] (fs !! output_file)) in
      let cleaned_lines :=
        map (fun line =>
               replace (replace (replace line [DQUOTE] []) [APOSTROPHE] []) [DQUOTE] [])
            lines in
      <[output_file := writelines cleaned_lines]> fs.

Definition main (fs : filesystem) : filesystem :=
    clean_csv_file "Papa_Dont_Preach_output.csv" fs.

End CleanCsv.

(** ** Sink (parser.py 366-402) *)

Definition SEMICOLON : N := 59.
Definition BACKSLASH : N := 92.

(** [csv.writer] with [delimiter=';'], [quoting=csv.QUOTE_NONE],
    [escapechar='\\'], the default [quotechar] and [lineterminator]: the
    delimiter, the escape character, the quote character and the
    characters of the line terminator are written after an escape
    character; nothing is quoted. *)
Definition needs_escape (c : N) : bool :=
  (c =? SEMICOLON) || (c =? BACKSLASH) || (c =? DQUOTE) || (c =? CR) || (c =? LF).

Definition csv_field (value : pystr) : pystr :=
  flat_map (fun c => if needs_escape c then [BACKSLASH; c] else [c]) value.

Definition LINETERMINATOR : pystr := [CR; LF].

Definition csv_row (fields : list pystr) : pystr :=
  join [SEMICOLON] (map csv_field fields) ++ LINETERMINATOR.

(** A character that UTF-8 can encode: any but a surrogate (U+D800 to
    U+DFFF), which a Python [str] may hold. *)
Definition encodable (c : N) : bool := negb ((55296 <=? c) && (c <=? 57343)).

(** [DictWriter.writerow] with the default [restval=''] and
    [extrasaction='raise'], on a file opened with [encoding='utf-8-sig']:
    the row written, or [None] for an exception, which is the [ValueError]
    raised for a key that is not a field name, or the [UnicodeEncodeError]
    raised by the file when the row holds a character that it cannot
    encode; nothing of the row is written then. *)
Definition writerow (fieldnames : list string) (rowdict : product_record)
  : option pystr :=
  if bool_decide (dom rowdict ⊆ (list_to_set fieldnames : gset string))
  then
    let row := csv_row (map (fun key => get rowdict key []) fieldnames) in
    if forallb encodable row then Some row else None
  else None.

(** [DictWriter.writeheader] *)
Definition writeheader (fieldnames : list string) : pystr :=
  csv_row (map u fieldnames).

(** Truth value of an entry of [product_data_list]: None and the empty
    dict are false. *)
Definition is_record (entry : option product_record) : bool :=
  match entry with
  | Some product_data => negb (bool_decide (product_data = ∅))
  | None => false
  end.

Inductive outcome : Type :=
  | Returned
  | Raised.      (* an exception left the function *)

(** The loop at parser.py 393-397, appending to what the file holds; the
    flag is false when [writerow] raised. *)
Fixpoint write_rows (product_data_list : list (option product_record))
    (written : pystr) : pystr * bool :=
  match product_data_list with
  | [] => (written, true)
  | entry :: rest =>
      if is_record entry then
        let cleaned_data := clean_product_data (default ∅ entry) in
        match writerow FIELDNAMES cleaned_data with
        | Some row => write_rows rest (written ++ row)
        | None => (written, false)
        end
      else write_rows rest written
  end.

Definition save_to_csv (product_data_list : list (option product_record))
    (output_file : string) (append : bool) (fs : filesystem)
  : outcome * filesystem :=
  match product_data_list with
  | [] => (Returned, fs)
  | _ :: _ =>
      let file_exists := exists_file fs output_file && append in
      let appending := append && file_exists in
      (* mode 'a' keeps the content, mode 'w' truncates *)
      let opened := if appending then default [] (fs !! output_file) else [] in
      let opened := if negb appending then opened ++ writeheader FIELDNAMES
                    else opened in
      let '(written, ok) := write_rows product_data_list opened in
      let fs' := <[output_file := written]> fs in
      if ok then (Returned, clean_csv_file output_file fs')
      else (Raised, fs')
  end.

(** ** Driver (parser.py 405-469) *)

Definition read_links_from_file (links_file : string) (fs : filesystem)
  : list pystr :=
  match fs !! links_file with
  | None => []
  | Some content =>
      List.filter (fun line => truthy line && negb (startswith line (u "#")))
                  (map strip (readlines content))
  end.

Definition OUTPUT_FILE : string := "Papa_Dont_Preach_output.csv".

Section Driver.
Context `{Externals}.

  (** The body of the loop at parser.py 443-462 for one link: the record, or
    [None] for a link whose page could not be downloaded or holds no data
    block; nothing is caught. *)
Definition process_link (url : pystr) (w : world)
  : result (option product_record) * world :=
  match parse_url url w with
  | (Exn, w1) => (Exn, w1)
  | (Ret product_data, w1) => (Ret (ensure_url url <$> product_data), w1)
  end.

(** The loop: the entries collected, and whether the loop came to its end
    or was left by an exception, which ends [main] as well. *)
Fixpoint process_links (links : list pystr) (w : world)
  : list (option product_record) * outcome * world :=
  match links with
  | [] => ([], Returned, w)
  | url :: rest =>
      match process_link url w with
      | (Exn, w1) => ([], Raised, w1)
      | (Ret entry, w1) =>
          let '(all_products, o, w2) := process_links rest w1 in
          (entry :: all_products, o, w2)
      end
  end.

Definition main (fs : filesystem) (w : world) : outcome * filesystem * world :=
    let links := read_links_from_file "links.txt" fs in
    match links with
    | [] => (Returned, fs, w)
    | _ :: _ =>
        match process_links links w with
        | (_, Raised, w') => (Raised, fs, w')
        | (all_products, Returned, w') =>
            match all_products with
            | [] => (Returned, fs, w')
            | _ :: _ =>
                let '(o, fs') := save_to_csv all_products OUTPUT_FILE false fs in
                (o, fs', w')
            end
        end
    end.

End Driver.

(** ** Other entry points (parser.py 270-280, 472-488) *)

Section EntryPoints.
Context `{Externals}.

(** parser.py 270-280: only the reading is in a [try], and it fails for a
    file that does not exist; the page is read in text mode, so its line
    ends reach the extractor as LF. *)
Definition parse_html_file (html_file_path : string) (fs : filesystem) (w : world)
  : result (option product_record) * world :=
  match fs !! html_file_path with
  | None => (Ret None, w)
  | Some content => extract_product_data (universal_newlines content) None w
  end.

(** The script: [argv] is [sys.argv]. *)
Definition script (argv : list pystr) (fs : filesystem) (w : world)
  : outcome * filesystem * world :=
  if (1 <? length argv)%nat && bool_decide (nth 1 argv [] = u "clean")
  then (Returned, clean_existing_csv OUTPUT_FILE fs, w)
  else main fs w.

End EntryPoints.

(** ** Notions of the specification *)

(** *** Labels, deduplication, fallback *)

(** The display label of a variant: its [public_title], when it has one
    that is not empty. *)
Definition label (v : variant) : option pystr :=
  match v !! "public_title" with
  | Some (c :: s) => Some (c :: s)
  | _ => None
  end.

Definition labels (variants : list variant) : list pystr := omap label variants.

(** Duplicates removed, every element kept at its first occurrence. *)
Fixpoint dedup_first (l : list pystr) : list pystr :=
  match l with
  | [] => []
  | x :: rest => x :: List.filter (fun y => negb (bool_decide (y = x))) (dedup_first rest)
  end.


(** *** The sources of the description, as the specification names them *)

Section DescriptionSources.
Context `{Externals}.







End DescriptionSources.

(** *** What a pattern accepts *)

Definition push_all (xs : pystr) (st : captures) : captures :=
  fold_left (fun st x => push x st) xs st.

(** [run r t st st']: the pattern [r] reads exactly the text [t] and takes
    the captures from [st] to [st']. *)
Inductive run : regex -> pystr -> captures -> captures -> Prop :=
  | run_nil st : run [] [] st st
  | run_lit c r t st st' :
      run r t (push c st) st' -> run (Lit c :: r) (c :: t) st st'
  | run_open r t st st' :
      run r t (open_group st) st' -> run (Open :: r) t st st'
  | run_close r t st st' :
      run r t (close_group st) st' -> run (Close :: r) t st st'
  | run_rep cls (plus greedy : bool) r xs t st st' :
      forallb cls xs = true -> (plus = true -> xs ≠ []) ->
      run r t (push_all xs st) st' ->
      run (Rep cls plus greedy :: r) (xs ++ t) st st'.

(** The texts a pattern reads, captures left aside. *)
Fixpoint denote (r : regex) (t : pystr) : Prop :=
  match r with
  | [] => t = []
  | Lit c :: r' => exists t', t = c :: t' /\ denote r' t'
  | Open :: r' => denote r' t
  | Close :: r' => denote r' t
  | Rep cls plus _ :: r' =>
      exists xs t', t = xs ++ t' /\ forallb cls xs = true
                    /\ (plus = true -> xs ≠ []) /\ denote r' t'
  end.

(** The pattern reads some part of the text. *)
Definition occurs (r : regex) (s : pystr) : Prop :=
  exists pre t post, s = pre ++ t ++ post /\ denote r t.

(** Whether every group of a pattern reads at least one character:
    a scan of the pattern that tracks the group being read. *)
Inductive group_state : Type :=
  | Outside
  | Inside_empty
  | Inside_nonempty.

Definition advance (g : group_state) : group_state :=
  match g with
  | Outside => Outside
  | _ => Inside_nonempty
  end.

Fixpoint groups_nonempty (r : regex) (g : group_state) : bool :=
  match r with
  | [] => true
  | Lit _ :: r' => groups_nonempty r' (advance g)
  | Rep _ plus _ :: r' => groups_nonempty r' (if plus then advance g else g)
  | Open :: r' => groups_nonempty r' Inside_empty
  | Close :: r' =>
      match g with
      | Inside_nonempty => groups_nonempty r' Outside
      | _ => false
      end
  end.

Definition agrees (g : group_state) (st : captures) : Prop :=
  match g with
  | Outside => True
  | Inside_empty => is_Some (current st)
  | Inside_nonempty => exists t, current st = Some t /\ t ≠ []
  end.

(** The number of groups a pattern closes. *)
Fixpoint group_count (r : regex) : nat :=
  match r with
  | [] => O
  | Close :: r' => S (group_count r')
  | _ :: r' => group_count r'
  end.

(** *** Quote characters, rows and lines *)

(** The characters the cleaning keeps: neither ASCII quote. *)
Definition not_ascii_quote (c : N) : bool :=
  negb (c =? DQUOTE) && negb (c =? APOSTROPHE).

(** One of the three quote characters named by the specification. *)
Definition is_spec_quote (c : N) : bool :=
  (c =? DQUOTE) || (c =? APOSTROPHE) || (c =? RDQUOTE).

(** The specification's reading of the cleaning pass: exactly the three
    quote characters are deleted and every other character is kept. *)
Definition deletes_only_quotes (before after : pystr) : Prop :=
  after = List.filter (fun c => negb (is_spec_quote c)) before.

(** The records of a list of optional records, in order. *)
Definition records (product_data_list : list (option product_record))
  : list product_record :=
  omap id product_data_list.

(** A record that the loop does not skip and whose keys are field names. *)
Definition well_keyed (r : product_record) : Prop :=
  r ≠ ∅ /\ dom r ⊆ (list_to_set FIELDNAMES : gset string).

(** A record whose values UTF-8 can encode. *)
Definition encodable_record (r : product_record) : Prop :=
  forall key value, r !! key = Some value -> forallb encodable value = true.

(** A record the writer accepts and the loop does not skip. *)
Definition writable (r : product_record) : Prop :=
  well_keyed r /\ encodable_record r.

(** Entries that are None are skipped; the others must be writable. *)
Definition all_writable (product_data_list : list (option product_record)) : Prop :=
  Forall (fun entry => forall r, entry = Some r -> writable r) product_data_list.

(** The row the writer emits for a record, and the same row as the file
    holds it after the cleaning pass. *)
Definition raw_row (r : product_record) : pystr :=
  csv_row (map (fun key => get (clean_product_data r) key []) FIELDNAMES).

Definition stored_row (r : product_record) : pystr :=
  universal_newlines (raw_row r).

Definition stored_header : pystr :=
  u "URL;ID;Name;Brand;Article;Gender;Image2;Ext Images;Description;Sizes;Color;Category;ID2;Combine"
  ++ [LF].

(** No value of the record holds a line break. *)
Definition single_line (r : product_record) : Prop :=
  forall key value, r !! key = Some value ->
    Forall (fun c => c ≠ CR /\ c ≠ LF) value.

(** The number of LF characters of a text. *)
Definition count_lf (s : pystr) : nat := length (List.filter (fun c => c =? LF) s).

(** The number of line terminators of a text as the program reads it. *)
Definition line_count (content : pystr) : nat :=
  length (List.filter (fun c => c =? LF) (universal_newlines content)).

(** The dict literal returned at parser.py 252-267. *)
Definition record14
    (url id name brand article gender image2 ext description sizes color
     category id2 combine : pystr) : product_record :=
  list_to_map
    [("URL", url); ("ID", id); ("Name", name); ("Brand", brand);
     ("Article", article); ("Gender", gender); ("Image2", image2);
     ("Ext Images", ext); ("Description", description); ("Sizes", sizes);
     ("Color", color); ("Category", category); ("ID2", id2); ("Combine", combine)].

(** An entry of [all_products] left by a link that could not be processed. *)
Definition is_failure (entry : option product_record) : bool :=
  match entry with
  | None => true
  | Some _ => false
  end.

(** A value the writer and the cleaning leave as it is: no delimiter, no
    escape character, no quote, no line break, no surrogate. *)
Definition plain (value : pystr) : Prop :=
  Forall (fun c => needs_escape c = false /\ c ≠ APOSTROPHE /\ encodable c = true)
         value.

(** The images the extractor finds in a page. *)
Definition images_found `{Externals} (html_content : pystr) : list pystr :=
  default [] (extract_images html_content).

(** The field mapping that [extract_product_data_regex] fills from a page
    (parser.py 77-121). *)
Definition found_fields `{Externals} (html_content : pystr) : kiwi_dict :=
  {| kd_product := field_match "product" html_content;
     kd_title := field_match "title" html_content;
     kd_vendor := field_match "vendor" html_content;
     kd_type := field_match "type" html_content;
     kd_images := extract_images html_content;
     kd_variants := Some (extract_variants html_content) |}.

(** The true entries of a list of optional records. *)
Definition true_entries (product_data_list : list (option product_record))
  : list (option product_record) :=
  List.filter is_record product_data_list.

(** *** Examples

    A stand-in for the outside world, for running the program on examples:
    pages without markup, no JSON, a counter as world.  Its HTML parser
    rejects a page that starts with an unfinished marked section, as
    html.parser does.  Links starting with https://ok are served a page
    with a data block, links starting with https://plain a page without
    one, links starting with https://marked a page that the HTML parser
    rejects; the download of a link starting with https://crash raises an
    exception that is not a [RequestException]; every other download fails
    with a [RequestException]. *)
Definition toy_page : pystr :=
  u "<script>KiwiSizing.data = {title: " ++ [DQUOTE] ++ u "Dress" ++ [DQUOTE]
  ++ u "};</script>".

(** A page without data block that html.parser rejects. *)
Definition marked_page : pystr := u "<![foo[ no data block".

Definition toy_externals : Externals := {|
  soup := pystr;
  tag := unit;
  BeautifulSoup := fun markup =>
    if startswith markup (u "<![foo[") then None else Some markup;
  soup_find := fun _ _ _ _ => None;
  tag_get := fun _ _ => None;
  get_text := fun sp => sp;
  json := unit;
  json_loads := fun _ => None;
  json_get := fun _ _ => None;
  json_str := fun _ => None;
  json_truthy := fun _ => false;
  markup_text := fun _ => None;
  unicode_isdecimal := fun c => (48 <=? c) && (c <=? 57);
  world := nat;
  uuid4 := fun n => (u "uuid-" ++ [48 + N.of_nat n], S n);
  requests_get := fun url n =>
    (if startswith url (u "https://ok") then Text toy_page
     else if startswith url (u "https://plain") then Text (u "<html></html>")
     else if startswith url (u "https://marked") then Text marked_page
     else if startswith url (u "https://crash") then OtherException
     else RequestException, n)
|}.

Definition toy_links : list pystr :=
  [u "https://ok/1"; u "https://down/2"; u "https://plain/3"; u "https://ok/4"].

Definition toy_links_file : pystr :=
  u "# links" ++ [LF] ++ u "https://ok/1" ++ [CR; LF] ++ u "  https://down/2 "
  ++ [LF; LF] ++ u "https://plain/3" ++ [LF] ++ u "https://ok/4".

(** A file with a CR LF line end. *)
Definition A_CR_LF_B : pystr := [97; CR; LF; 98].

(** Sample records of the examples. *)
Definition sample_record (name : string) : product_record :=
  record14 (u "https://x/p") (u "1") (u name) [] [] [] [] [] [] [] [] []
    (u "id2") [].

(** A record whose Name is a, the lone surrogate U+D800, b: a string that
    [json.loads] gives for an escaped surrogate, and that UTF-8 cannot
    encode. *)
Definition surrogate_record : product_record :=
  record14 (u "https://x/q") (u "2") [97; 55296; 98]
    [] [] [] [] [] [] [] [] [] (u "id3") [].

(** A record whose Name is A, double quote, B, apostrophe, C, right double
    quote, D. *)
Definition quoted_record : product_record :=
  record14 (u "https://x/p") (u "1")
    [65; DQUOTE; 66; APOSTROPHE; 67; RDQUOTE; 68]
    [] [] [] [] [] [] [] [] [] (u "id2") [].

(** * Properties *)

(** ** Strings and lists *)

(** Replaces the ASCII literals of the goal by their code points. *)
Ltac literals :=
  repeat match goal with
         | |- context [u ?s] =>
             let v := eval vm_compute in (u s) in
             progress change (u s) with v
         end.

Lemma startswith_app (p s : pystr) : startswith (p ++ s) p = true.
Proof.
  induction p as [|c p IH]; simpl; [done |].
  by rewrite N.eqb_refl, IH.
Qed.

Lemma filter_filter_and {A} (p q : A -> bool) (l : list A) :
  List.filter p (List.filter q l) = List.filter (fun x => q x && p x) l.
Proof.
  induction l as [|x l IH]; simpl; [done |].
  destruct (q x); simpl; [destruct (p x) |]; by rewrite IH.
Qed.

Lemma contains_snoc (acc : list pystr) (x y : pystr) :
  contains (acc ++ [x]) y = contains acc y || bool_decide (y = x).
Proof.
  unfold contains. apply eq_true_iff_eq.
  rewrite orb_true_iff, !bool_decide_eq_true, elem_of_app, list_elem_of_singleton.
  done.
Qed.

(** *** Runs of the string and file functions *)

Example replace_escaped_slashes :
  replace (u "https:" ++ [92; 47; 92; 47] ++ u "cdn.x" ++ [92; 47] ++ u "y.jpg")
          ESCAPED_SLASH (u "/")
  = u "https://cdn.x/y.jpg".
Proof. reflexivity. Qed.

Example strip_blanks : strip ([32; 9] ++ u "https://x/p" ++ [32; CR; LF]) = u "https://x/p".
Proof. reflexivity. Qed.

Example readlines_mixed_line_ends :
  readlines (u "a" ++ [CR; LF] ++ u "b" ++ [CR] ++ u "c" ++ [LF] ++ u "d")
  = [u "a" ++ [LF]; u "b" ++ [LF]; u "c" ++ [LF]; u "d"].
Proof. reflexivity. Qed.

Example links_file_read :
  read_links_from_file "links.txt" {[ "links.txt" := toy_links_file ]} = toy_links.
Proof. reflexivity. Qed.

(** A value with a delimiter and a line break: both are escaped by the
    writer, and the cleaning pass turns the line ends into LF. *)
Example row_with_delimiter_and_line_break :
  raw_row {[ "Name" := u "a;b" ++ [LF] ++ u "c" ]}
  = u ";;a" ++ [BACKSLASH] ++ u ";b" ++ [BACKSLASH; LF] ++ u "c;;;;;;;;;;;" ++ [CR; LF]
  /\ stored_row {[ "Name" := u "a;b" ++ [LF] ++ u "c" ]}
     = u ";;a" ++ [BACKSLASH] ++ u ";b" ++ [BACKSLASH; LF] ++ u "c;;;;;;;;;;;" ++ [LF].
Proof. split; reflexivity. Qed.

(** ** Sizes: the loop computes the first-occurrence deduplication *)

Lemma sizes_step_label (acc : list pystr) (v : variant) :
  sizes_step acc v =
    match label v with
    | Some x => if contains acc x then acc else acc ++ [x]
    | None => acc
    end.
Proof.
  unfold sizes_step, label, get.
  destruct (v !! "public_title") as [[|c s]|]; simpl; try done.
  by destruct (contains acc (c :: s)).
Qed.

Lemma sizes_fold (variants : list variant) (acc : list pystr) :
  fold_left sizes_step variants acc =
    acc ++ List.filter (fun y => negb (contains acc y)) (dedup_first (labels variants)).
Proof.
  revert acc. induction variants as [|v vs IH]; intros acc; simpl.
  { by rewrite app_nil_r. }
  rewrite IH, sizes_step_label. unfold labels. simpl.
  fold (labels vs). destruct (label v) as [x|]; simpl; [|done].
  destruct (contains acc x) eqn:Hx; simpl.
  - f_equal. rewrite filter_filter_and. apply List.filter_ext. intros y.
    destruct (bool_decide (y = x)) eqn:Hy; simpl; [|done].
    apply bool_decide_eq_true in Hy. subst y. by rewrite Hx.
  - rewrite <- app_assoc. simpl. do 2 f_equal.
    rewrite filter_filter_and. apply List.filter_ext. intros y.
    rewrite contains_snoc, negb_orb. apply andb_comm.
Qed.

Lemma sizes_of_dedup (variants : list variant) :
  sizes_of variants = dedup_first (labels variants).
Proof.
  unfold sizes_of. rewrite sizes_fold. cbn [app].
  induction (dedup_first (labels variants)) as [|x l IH]; [done |].
  cbn [List.filter].
  assert (contains [] x = false) as ->
    by apply bool_decide_eq_false_2, not_elem_of_nil.
  cbn [negb]. by rewrite IH.
Qed.

Lemma elem_of_dedup_first (l : list pystr) (x : pystr) :
  x ∈ dedup_first l <-> x ∈ l.
Proof.
  induction l as [|y l IH]; simpl; [done |].
  rewrite !elem_of_cons, <- IH, list_elem_of_In, List.filter_In, <- list_elem_of_In.
  rewrite negb_true_iff, bool_decide_eq_false.
  destruct (decide (x = y)); tauto.
Qed.

Lemma NoDup_filter_bool {A} (p : A -> bool) (l : list A) :
  NoDup l -> NoDup (List.filter p l).
Proof.
  induction 1 as [|x l Hx Hl IH]; simpl; [constructor |].
  destruct (p x); [|done]. constructor; [|done].
  rewrite list_elem_of_In, List.filter_In, <- list_elem_of_In. tauto.
Qed.

Lemma NoDup_dedup_first (l : list pystr) : NoDup (dedup_first l).
Proof.
  induction l as [|y l IH]; simpl; constructor.
  - rewrite list_elem_of_In, List.filter_In, negb_true_iff, bool_decide_eq_false.
    tauto.
  - by apply NoDup_filter_bool.
Qed.

Lemma join_nil_or (sep : pystr) (l : list pystr) :
  match l with [] => [] | _ :: _ => join sep l end = join sep l.
Proof. by destruct l. Qed.

(** ** Regular expressions: the matcher against what a pattern accepts *)

Lemma rep_loop_sound cls greedy r'
    (k : pystr -> captures -> option (captures * pystr)) :
  (forall s st st' rest, k s st = Some (st', rest) ->
     exists t, s = t ++ rest /\ run r' t st st') ->
  forall s st enough st' rest,
    rep_loop cls greedy k s st enough = Some (st', rest) ->
    exists xs t, s = xs ++ t ++ rest /\ forallb cls xs = true
                 /\ (enough = false -> xs ≠ [])
                 /\ run r' t (push_all xs st) st'.
Proof.
  intros Hk. induction s as [|x s IH]; intros st enough st' rest Hloop.
  - cbn in Hloop.
    assert (enough = true /\ k [] st = Some (st', rest)) as [-> Hstop].
    { destruct greedy, enough; try discriminate; try done.
      destruct (k [] st); [done | discriminate]. }
    destruct (Hk _ _ _ _ Hstop) as (t & Ht & Hrun).
    exists [], t. by repeat split.
  - cbn [rep_loop] in Hloop.
    assert ((cls x = true /\ rep_loop cls greedy k s (push x st) true = Some (st', rest))
            \/ (enough = true /\ k (x :: s) st = Some (st', rest))) as [[Hx Hmore] | [-> Hstop]].
    { destruct greedy.
      - destruct (cls x).
        + destruct (rep_loop cls true k s (push x st) true) as [m|]; [left; by injection Hloop as -> |].
          right. by destruct enough.
        + right. by destruct enough.
      - destruct enough.
        + destruct (k (x :: s) st) as [m|]; [right; by injection Hloop as -> |].
          left. by destruct (cls x).
        + left. by destruct (cls x). }
    + destruct (IH _ _ _ _ Hmore) as (xs & t & -> & Hxs & _ & Hrun).
      exists (x :: xs), t. repeat split; [| done | done].
      cbn. by rewrite Hx, Hxs.
    + destruct (Hk _ _ _ _ Hstop) as (t & Ht & Hrun).
      exists [], t. by repeat split.
Qed.

Lemma mh_sound (r : regex) (s : pystr) (st st' : captures) (rest : pystr) :
  mh r s st = Some (st', rest) -> exists t, s = t ++ rest /\ run r t st st'.
Proof.
  revert s st st' rest. induction r as [|a r IH]; intros s st st' rest Hm.
  - injection Hm as <- <-. exists []. split; [done | constructor].
  - destruct a as [c | cls plus greedy | |]; cbn [mh] in Hm.
    + destruct s as [|x s]; [discriminate |].
      destruct (x =? c) eqn:Hx; [|discriminate]. apply N.eqb_eq in Hx as ->.
      destruct (IH _ _ _ _ Hm) as (t & -> & Hrun).
      exists (c :: t). split; [done | by constructor].
    + destruct (rep_loop_sound cls greedy r (mh r) IH _ _ _ _ _ Hm)
        as (xs & t & -> & Hxs & Hne & Hrun).
      exists (xs ++ t). split; [by rewrite app_assoc |].
      constructor; [done | | done]. intros ->. by apply Hne.
    + destruct (IH _ _ _ _ Hm) as (t & -> & Hrun). exists t. split; [done | by constructor].
    + destruct (IH _ _ _ _ Hm) as (t & -> & Hrun). exists t. split; [done | by constructor].
Qed.

Lemma rep_loop_complete cls greedy
    (k : pystr -> captures -> option (captures * pystr)) (xs tl : pystr) :
  forall st enough,
    forallb cls xs = true -> (enough = false -> xs ≠ []) ->
    is_Some (k tl (push_all xs st)) ->
    is_Some (rep_loop cls greedy k (xs ++ tl) st enough).
Proof.
  induction xs as [|x xs IH]; intros st enough Hcls Hne Hk.
  - destruct enough; [|exfalso; by apply Hne]. cbn [app].
    unfold push_all in Hk. cbn [fold_left] in Hk. destruct Hk as [m Hk].
    destruct tl as [|y tl]; cbn [rep_loop]; rewrite Hk.
    + by destruct greedy.
    + destruct greedy; [|done]. destruct (cls y); [|done].
      by destruct (rep_loop cls true k tl (push y st) true).
  - cbn in Hcls. apply andb_true_iff in Hcls as [Hx Hxs].
    cbn [app rep_loop]. rewrite Hx.
    assert (is_Some (rep_loop cls greedy k (xs ++ tl) (push x st) true)) as [m Hm].
    { apply IH; [done | done | done]. }
    rewrite Hm. destruct greedy; [done |].
    destruct enough; [|done]. by destruct (k (x :: xs ++ tl) st).
Qed.

Lemma mh_complete (r : regex) (t : pystr) (st st' : captures) :
  run r t st st' -> forall rest, is_Some (mh r (t ++ rest) st).
Proof.
  induction 1 as [st | c r t st st' _ IH | r t st st' _ IH | r t st st' _ IH
                  | cls plus greedy r xs t st st' Hxs Hne _ IH]; intros rest;
    cbn [mh app].
  - done.
  - rewrite N.eqb_refl. apply IH.
  - apply IH.
  - apply IH.
  - rewrite <- app_assoc. apply rep_loop_complete; [done | | apply IH].
    intros Hplus. apply Hne. by destruct plus.
Qed.

Lemma run_denote (r : regex) (t : pystr) (st st' : captures) :
  run r t st st' -> denote r t.
Proof.
  induction 1; cbn [denote]; eauto 10.
Qed.

Lemma denote_run (r : regex) (t : pystr) :
  denote r t -> forall st, exists st', run r t st st'.
Proof.
  revert t. induction r as [|a r IH]; intros t Ht st; cbn [denote] in Ht.
  - subst t. eexists. constructor.
  - destruct a as [c | cls plus greedy | |].
    + destruct Ht as (t' & -> & Ht'). destruct (IH _ Ht' (push c st)) as [st' Hrun].
      exists st'. by constructor.
    + destruct Ht as (xs & t' & -> & Hxs & Hne & Ht').
      destruct (IH _ Ht' (push_all xs st)) as [st' Hrun].
      exists st'. by constructor.
    + destruct (IH _ Ht (open_group st)) as [st' Hrun]. exists st'. by constructor.
    + destruct (IH _ Ht (close_group st)) as [st' Hrun]. exists st'. by constructor.
Qed.

Lemma search_from_sound (r : regex) (s : pystr) (gs : list pystr) (rest : pystr) :
  search_from r s = Some (gs, rest) ->
  exists pre t st', s = pre ++ t ++ rest /\ run r t no_captures st' /\ gs = closed st'.
Proof.
  induction s as [|x s IH]; cbn [search_from].
  - destruct (mh r [] no_captures) as [[st' rest']|] eqn:Hm; [|discriminate].
    intros [= <- <-]. destruct (mh_sound _ _ _ _ _ Hm) as (t & Ht & Hrun).
    exists [], t, st'. by repeat split.
  - destruct (mh r (x :: s) no_captures) as [[st' rest']|] eqn:Hm.
    + intros [= <- <-]. destruct (mh_sound _ _ _ _ _ Hm) as (t & Ht & Hrun).
      exists [], t, st'. by repeat split.
    + intros Hs. destruct (IH Hs) as (pre & t & st' & -> & Hrun & ->).
      exists (x :: pre), t, st'. by repeat split.
Qed.

Lemma search_from_complete (r : regex) (s : pystr) :
  occurs r s -> is_Some (search_from r s).
Proof.
  intros (pre & t & post & -> & Ht).
  induction pre as [|x pre IH].
  - destruct (denote_run _ _ Ht no_captures) as [st' Hrun].
    destruct (mh_complete _ _ _ _ Hrun post) as [[st1 rest1] Hm].
    cbn [app]. destruct (t ++ post); cbn [search_from]; by rewrite Hm.
  - cbn [app search_from]. destruct (mh r _ no_captures) as [[st1 rest1]|]; [done |].
    exact IH.
Qed.

(** [re.search] finds a match exactly when the pattern occurs in the text. *)
Lemma re_search_occurs (r : regex) (s : pystr) :
  is_Some (re_search r s) <-> occurs r s.
Proof.
  unfold re_search. split.
  - intros [gs Hgs]. destruct (search_from r s) as [[gs' rest]|] eqn:Hs; [|discriminate].
    destruct (search_from_sound _ _ _ _ Hs) as (pre & t & st' & -> & Hrun & _).
    exists pre, t, rest. split; [done |]. by eapply run_denote.
  - intros Hocc. destruct (search_from_complete _ _ Hocc) as [[gs rest] ->]. by eexists.
Qed.

Lemma re_search_none (r : regex) (s : pystr) :
  re_search r s = None <-> ~ occurs r s.
Proof.
  rewrite <- re_search_occurs. destruct (re_search r s) as [m|].
  - split; [discriminate |]. intros Hn. exfalso. apply Hn. by eexists.
  - split; [|done]. intros _ [? ?]. discriminate.
Qed.

(** The lazy quantifier of the data block pattern stops at the first
    closing brace followed by a semicolon; the first match wins. *)
Example kiwi_block_is_shortest :
  re_search KIWI_RE (u "var x; KiwiSizing.data  = {a: 1};{b: 2}; KiwiSizing.data={c};")
  = Some [u "{a: 1}"].
Proof. reflexivity. Qed.

Example quoted_strings_found :
  map (fun m => group m 1)
      (re_findall QUOTED_RE
         ([DQUOTE] ++ u "//a.jpg" ++ [DQUOTE] ++ u "," ++ [DQUOTE]
          ++ u "/b.jpg" ++ [DQUOTE]))
  = [u "//a.jpg"; u "/b.jpg"].
Proof. reflexivity. Qed.

(** *** Groups *)

Lemma push_all_closed (xs : pystr) (st : captures) :
  closed (push_all xs st) = closed st.
Proof.
  revert st. induction xs as [|x xs IH]; intros st; [done |].
  unfold push_all in *. cbn [fold_left]. by rewrite IH.
Qed.

Lemma agrees_push (g : group_state) (c : N) (st : captures) :
  agrees g st -> agrees (advance g) (push c st).
Proof.
  destruct g; cbn; [done | |].
  - intros [t ->]. cbn. exists (t ++ [c]). split; [done |]. by destruct t.
  - intros (t & -> & Ht). cbn. exists (t ++ [c]). split; [done |]. by destruct t.
Qed.

Lemma agrees_push_same (g : group_state) (c : N) (st : captures) :
  agrees g st -> agrees g (push c st).
Proof.
  destruct g; cbn; [done | |].
  - intros [t ->]. cbn. by eexists.
  - intros (t & -> & Ht). cbn. exists (t ++ [c]). split; [done |]. by destruct t.
Qed.

Lemma agrees_push_all_same (g : group_state) (xs : pystr) (st : captures) :
  agrees g st -> agrees g (push_all xs st).
Proof.
  revert st. induction xs as [|x xs IH]; intros st Hg; [done |].
  unfold push_all in *. cbn [fold_left]. by apply IH, agrees_push_same.
Qed.

Lemma agrees_push_all (g : group_state) (xs : pystr) (st : captures) :
  xs ≠ [] -> agrees g st -> agrees (advance g) (push_all xs st).
Proof.
  destruct xs as [|x xs]; [done |]. intros _ Hg.
  unfold push_all. cbn [fold_left]. fold (push_all xs (push x st)).
  by apply agrees_push_all_same, agrees_push.
Qed.

Lemma run_groups_nonempty (r : regex) (t : pystr) (st st' : captures) :
  run r t st st' ->
  forall g, groups_nonempty r g = true -> agrees g st ->
            Forall (fun w => w ≠ []) (closed st) ->
            Forall (fun w => w ≠ []) (closed st').
Proof.
  induction 1 as [st | c r t st st' _ IH | r t st st' _ IH | r t st st' _ IH
                  | cls plus greedy r xs t st st' Hxs Hne _ IH];
    intros g Hr Hg Hclosed; cbn [groups_nonempty] in Hr.
  - done.
  - eapply IH; [done | by apply agrees_push | done].
  - eapply IH; [done | | done]. cbn. by eexists.
  - destruct g; try discriminate. destruct Hg as (w & Hw & Hne).
    eapply IH; [done | done |]. cbn. rewrite Hw. cbn.
    apply Forall_app. split; [done |]. by repeat constructor.
  - eapply IH; [done | | by rewrite push_all_closed].
    destruct plus; [apply agrees_push_all; [by apply Hne | done]
                   | by apply agrees_push_all_same].
Qed.

Lemma run_group_count (r : regex) (t : pystr) (st st' : captures) :
  run r t st st' -> length (closed st') = (length (closed st) + group_count r)%nat.
Proof.
  induction 1 as [st | c r t st st' _ IH | r t st st' _ IH | r t st st' _ IH
                  | cls plus greedy r xs t st st' Hxs Hne _ IH];
    cbn [group_count]; rewrite ?IH, ?push_all_closed; cbn; try lia.
  rewrite length_app. cbn. lia.
Qed.

Lemma findall_fuel_sound (r : regex) (fuel : nat) (s : pystr) (gs : list pystr) :
  gs ∈ findall_fuel fuel r s ->
  exists t st', run r t no_captures st' /\ gs = closed st'.
Proof.
  revert s. induction fuel as [|fuel IH]; intros s; cbn [findall_fuel].
  { by intros Hin%not_elem_of_nil. }
  destruct (search_from r s) as [[gs' rest]|] eqn:Hs; [|by intros Hin%not_elem_of_nil].
  intros [-> | Hin]%elem_of_cons.
  - destruct (search_from_sound _ _ _ _ Hs) as (pre & t & st' & _ & Hrun & ->).
    by exists t, st'.
  - destruct s as [|x s]; [by apply not_elem_of_nil in Hin |]. by eapply IH.
Qed.

(** The fuel given to [re_findall] is enough: more fuel finds the same
    matches. *)
Lemma search_from_rest_length (r : regex) (s : pystr) (gs : list pystr) (rest : pystr) :
  search_from r s = Some (gs, rest) -> (length rest <= length s)%nat.
Proof.
  intros Hs. destruct (search_from_sound _ _ _ _ Hs) as (pre & t & st' & -> & _).
  rewrite !length_app. lia.
Qed.

Lemma findall_fuel_enough (r : regex) (fuel1 fuel2 : nat) (s : pystr) :
  (length s < fuel1)%nat -> (length s < fuel2)%nat ->
  findall_fuel fuel1 r s = findall_fuel fuel2 r s.
Proof.
  revert fuel2 s. induction fuel1 as [|fuel1 IH]; intros fuel2 s H1 H2; [lia |].
  destruct fuel2 as [|fuel2]; [lia |]. cbn [findall_fuel].
  destruct (search_from r s) as [[gs rest]|] eqn:Hs; [|done].
  destruct s as [|x s]; [done |]. f_equal.
  apply search_from_rest_length in Hs. cbn [length tail] in *.
  destruct (length rest <? S (length s))%nat eqn:Hlt.
  - apply Nat.ltb_lt in Hlt. apply IH; lia.
  - apply IH; lia.
Qed.

(** Every match reported by [re.findall] for a pattern whose groups read at
    least one character has all its groups non-empty. *)
Lemma re_findall_groups (r : regex) (s : pystr) (gs : list pystr) :
  groups_nonempty r Outside = true -> gs ∈ re_findall r s ->
  length gs = group_count r /\ Forall (fun w => w ≠ []) gs.
Proof.
  intros Hr Hin. destruct (findall_fuel_sound _ _ _ _ Hin) as (t & st' & Hrun & ->).
  split.
  - by rewrite (run_group_count _ _ _ _ Hrun).
  - by eapply run_groups_nonempty.
Qed.

Lemma labels_all_present (l : list variant) :
  (forall v, v ∈ l -> exists title, title ≠ [] /\ v !! "public_title" = Some title) ->
  labels l = map (fun v => get v "public_title" []) l.
Proof.
  induction l as [|v l IH]; intros Hall; [done |].
  destruct (Hall v) as (title & Htitle & Hv); [by left |].
  change (labels (v :: l))
    with (match label v with Some x => x :: labels l | None => labels l end).
  rewrite IH by (intros; apply Hall; by right).
  cbn [map]. unfold label, get. rewrite !Hv. by destruct title.
Qed.

Section VariantLabels.
Context `{Externals}.

Lemma extract_variants_fields (html_content : pystr) (v : variant) :
  v ∈ extract_variants html_content ->
  exists title sku, title ≠ [] /\ sku ≠ []
    /\ v = {[ "public_title" := title; "sku" := sku ]}.
Proof.
  unfold extract_variants.
  destruct (re_search (array_re "variants") html_content) as [m|];
    [|by intros Hin%not_elem_of_nil].
  intros (gs & -> & Hgs)%list_elem_of_fmap.
  apply re_findall_groups in Hgs as [Hlen Hne]; [|reflexivity].
  destruct gs as [|title [|sku [|? ?]]]; try discriminate.
  inversion Hne as [|? ? Htitle Hne']; subst. inversion Hne' as [|? ? Hsku _]; subst.
  by exists title, sku.
Qed.

(** The variants found by the extractor all carry a label: their labels are
    their public_title values. *)
Lemma extract_variants_labels (html_content : pystr) :
  labels (extract_variants html_content)
  = map (fun v => get v "public_title" []) (extract_variants html_content).
Proof.
  apply labels_all_present. intros v Hv.
  destruct (extract_variants_fields html_content v Hv)
    as (title & sku & Htitle & _ & ->).
  exists title. split; [done |]. apply lookup_insert_eq.
Qed.

End VariantLabels.

(** *** The data block pattern *)

Lemma denote_lit (s : string) (r : regex) (t : pystr) :
  denote (lit s ++ r) t <-> exists t', t = u s ++ t' /\ denote r t'.
Proof.
  unfold lit. revert t. induction (u s) as [|c l IH]; intros t; cbn [map app denote].
  - split; [by exists t | by intros (t' & -> & Ht')].
  - split.
    + intros (t1 & -> & Ht1). apply IH in Ht1 as (t' & -> & Ht'). by exists t'.
    + intros (t' & -> & Ht'). exists (l ++ t'). split; [done |]. apply IH. by exists t'.
Qed.

Lemma denote_kiwi (t : pystr) :
  denote KIWI_RE t
  <-> exists ws1 ws2 body,
        t = u "KiwiSizing.data" ++ ws1 ++ u "=" ++ ws2 ++ u "{" ++ body ++ u "};"
        /\ forallb isspace ws1 = true /\ forallb isspace ws2 = true.
Proof.
  unfold KIWI_RE, ws. split.
  - intros Ht.
    apply denote_lit in Ht as (t1 & -> & Ht). cbn [app denote] in Ht.
    destruct Ht as (ws1 & t2 & -> & Hws1 & _ & Ht).
    apply denote_lit in Ht as (t3 & -> & Ht). cbn [app denote] in Ht.
    destruct Ht as (ws2 & t4 & -> & Hws2 & _ & Ht).
    apply denote_lit in Ht as (t5 & -> & Ht). cbn [app denote] in Ht.
    destruct Ht as (body & t6 & -> & _ & _ & Ht).
    apply denote_lit in Ht as (t7 & -> & Ht). cbn [app denote] in Ht.
    apply (denote_lit ";" []) in Ht as (t8 & -> & ->).
    exists ws1, ws2, body. by repeat split.
  - intros (ws1 & ws2 & body & -> & Hws1 & Hws2).
    apply denote_lit. eexists. split; [done |]. cbn [app denote].
    exists ws1. eexists. split; [done |]. split; [done |]. split; [done |].
    apply denote_lit. eexists. split; [done |]. cbn [app denote].
    exists ws2. eexists. split; [done |]. split; [done |]. split; [done |].
    apply denote_lit. eexists. split; [done |]. cbn [app denote].
    exists body. eexists. split; [done |]. split.
    { clear. by induction body. }
    split; [done |].
    apply (denote_lit "}" ([Close] ++ lit ";")). exists (u ";"). split; [done |].
    cbn [app denote]. apply (denote_lit ";" []). by exists [].
Qed.

(** The data block pattern occurs in a page exactly when the page holds the
    text KiwiSizing.data, blanks, an equals sign, blanks, an opening brace,
    and further on a closing brace followed by a semicolon. *)
Lemma occurs_kiwi (s : pystr) :
  occurs KIWI_RE s
  <-> exists pre ws1 ws2 body post,
        s = pre ++ u "KiwiSizing.data" ++ ws1 ++ u "=" ++ ws2 ++ u "{"
              ++ body ++ u "};" ++ post
        /\ forallb isspace ws1 = true /\ forallb isspace ws2 = true.
Proof.
  unfold occurs. split.
  - intros (pre & t & post & -> & Ht).
    apply denote_kiwi in Ht as (ws1 & ws2 & body & -> & Hws1 & Hws2).
    exists pre, ws1, ws2, body, post. split; [|done].
    by rewrite <- !app_assoc.
  - intros (pre & ws1 & ws2 & body & post & -> & Hws1 & Hws2).
    exists pre, (u "KiwiSizing.data" ++ ws1 ++ u "=" ++ ws2 ++ u "{" ++ body ++ u "};"),
      post.
    split; [by rewrite <- !app_assoc |].
    apply denote_kiwi. by exists ws1, ws2, body.
Qed.

(** ** The record built by [process_kiwi_data] *)

Lemma record14_dom url id name brand article gender image2 ext description sizes
    color category id2 combine :
  dom (record14 url id name brand article gender image2 ext description sizes
         color category id2 combine) = list_to_set FIELDNAMES.
Proof. unfold record14. by rewrite dom_list_to_map_L. Qed.

Lemma record14_lookup url id name brand article gender image2 ext description
    sizes color category id2 combine :
  map (fun k => record14 url id name brand article gender image2 ext description
                  sizes color category id2 combine !! k) FIELDNAMES
  = map Some [url; id; name; brand; article; gender; image2; ext; description;
              sizes; color; category; id2; combine].
Proof. reflexivity. Qed.

Section Builder.
Context `{Externals}.

Lemma process_kiwi_data_eq kiwi_data html_content sp product_url w :
    process_kiwi_data kiwi_data html_content sp product_url w =
      (record14
         (if falsy product_url then page_url html_content sp
          else default [] product_url)
         (default [] (kd_product kiwi_data))
         (default [] (kd_title kiwi_data))
         (default [] (kd_vendor kiwi_data))
         (article_of (default [] (kd_variants kiwi_data)))
         []
         (image2_of (default [] (kd_images kiwi_data)))
         (ext_images_of (default [] (kd_images kiwi_data)))
         (description_of html_content sp)
         (sizes_str_of (default [] (kd_variants kiwi_data)))
         []
         (default [] (kd_type kiwi_data))
         (uuid4 w).1
         [],
       (uuid4 w).2).
  Proof. unfold process_kiwi_data. by destruct (uuid4 w). Qed.

Lemma process_kiwi_data_dom kiwi_data html_content sp product_url w :
    dom (process_kiwi_data kiwi_data html_content sp product_url w).1
    = list_to_set FIELDNAMES.
  Proof. rewrite process_kiwi_data_eq. apply record14_dom. Qed.

(** C1. Every record built by [process_kiwi_data] has exactly the 14 keys
    URL, ID, Name, Brand, Article, Gender, Image2, Ext Images, Description,
    Sizes, Color, Category, ID2, Combine, whatever the field mapping and the
    page text are; a field absent from the mapping gives the empty string
    under its key, never a missing key. *)
Theorem process_kiwi_data_has_all_columns
      (kiwi_data : kiwi_dict) (html_content : pystr) (sp : soup)
      (product_url : option pystr) (w : world) :
    let r := (process_kiwi_data kiwi_data html_content sp product_url w).1 in
    dom r = list_to_set FIELDNAMES
    /\ size r = 14%nat
    /\ Forall (fun key => is_Some (r !! key)) FIELDNAMES
    /\ r !! "ID" = Some (default [] (kd_product kiwi_data))
    /\ r !! "Name" = Some (default [] (kd_title kiwi_data))
    /\ r !! "Brand" = Some (default [] (kd_vendor kiwi_data))
    /\ r !! "Category" = Some (default [] (kd_type kiwi_data))
    /\ r !! "Image2" = Some (image2_of (default [] (kd_images kiwi_data)))
    /\ r !! "Ext Images" = Some (ext_images_of (default [] (kd_images kiwi_data)))
    /\ r !! "Sizes" = Some (sizes_str_of (default [] (kd_variants kiwi_data)))
    /\ r !! "Article" = Some (article_of (default [] (kd_variants kiwi_data)))
    /\ r !! "Gender" = Some [] /\ r !! "Color" = Some [] /\ r !! "Combine" = Some []
    /\ image2_of [] = [] /\ ext_images_of [] = []
    /\ sizes_str_of [] = [] /\ article_of [] = [].
  Proof.
    intros r. subst r. rewrite process_kiwi_data_eq. cbn [fst].
    split; [apply record14_dom |].
    split.
    { rewrite <- size_dom, record14_dom. reflexivity. }
    split.
    { apply Forall_forall. intros key Hkey. apply elem_of_dom.
      rewrite record14_dom. by apply elem_of_list_to_set. }
    repeat split; reflexivity.
  Qed.

End Builder.

(** ** Images, sizes and article in the record *)

Lemma startswith_slash_slash (img : pystr) :
  startswith img (u "/") = false -> startswith img (u "//") = false.
Proof.
  destruct img as [|c img]; [done |]. literals. simpl.
  destruct (c =? 47); simpl; [discriminate | done].
Qed.

(** C3. Image URL normalization: a string starting with two slashes gets
    the prefix https: (so //cdn.x/y.jpg becomes https://cdn.x/y.jpg); a
    string starting with a single slash gets the prefix
    https://www.papadontpreach.com; every other string is unchanged. *)
Theorem absolute_url_normalizes (img : pystr) :
  (startswith img (u "//") = true -> absolute_url img = u "https:" ++ img)
  /\ (startswith img (u "/") = true -> startswith img (u "//") = false ->
      absolute_url img = u "https://www.papadontpreach.com" ++ img)
  /\ (startswith img (u "/") = false -> absolute_url img = img)
  /\ absolute_url (u "//" ++ img) = u "https://" ++ img.
Proof.
  unfold absolute_url. split; [|split; [|split]].
  - by intros ->.
  - by intros -> ->.
  - intros Hs. by rewrite (startswith_slash_slash _ Hs), Hs.
  - by rewrite startswith_app.
Qed.

Lemma absolute_url_normalizes_witness :
  absolute_url (u "//cdn.x/y.jpg") = u "https://cdn.x/y.jpg"
  /\ absolute_url (u "/p/y.jpg") = u "https://www.papadontpreach.com/p/y.jpg"
  /\ absolute_url (u "https://cdn.x/y.jpg") = u "https://cdn.x/y.jpg".
Proof.
  split; [|split].
  - apply (absolute_url_normalizes (u "//cdn.x/y.jpg")). reflexivity.
  - apply (absolute_url_normalizes (u "/p/y.jpg")); reflexivity.
  - apply (absolute_url_normalizes (u "https://cdn.x/y.jpg")). reflexivity.
Defined.

Section BuilderFields.
Context `{Externals}.
Context (product title vendor type_ : option pystr).
Context (html_content : pystr) (sp : soup) (product_url : option pystr) (w : world).

Lemma record_image2 kiwi_data :
  (process_kiwi_data kiwi_data html_content sp product_url w).1 !! "Image2"
  = Some (image2_of (default [] (kd_images kiwi_data))).
Proof. by rewrite process_kiwi_data_eq. Qed.

Lemma record_ext_images kiwi_data :
  (process_kiwi_data kiwi_data html_content sp product_url w).1 !! "Ext Images"
  = Some (ext_images_of (default [] (kd_images kiwi_data))).
Proof. by rewrite process_kiwi_data_eq. Qed.

Lemma record_sizes kiwi_data :
  (process_kiwi_data kiwi_data html_content sp product_url w).1 !! "Sizes"
  = Some (sizes_str_of (default [] (kd_variants kiwi_data))).
Proof. by rewrite process_kiwi_data_eq. Qed.

Lemma record_article kiwi_data :
  (process_kiwi_data kiwi_data html_content sp product_url w).1 !! "Article"
  = Some (article_of (default [] (kd_variants kiwi_data))).
Proof. by rewrite process_kiwi_data_eq. Qed.

(** C2. Only the first three images are consumed, each after URL
    normalization: one image A gives Image2 = A and empty Ext Images; two
    images A, B give Image2 = A and Ext Images = B; three or more give
    Image2 = A and Ext Images = B and C joined by a comma, and the record
    does not depend on the entries past the third. *)
Theorem images_first_three_consumed
    (variants : option (list variant)) (A B C : pystr) (more : list pystr) :
  let rec_of images :=
    (process_kiwi_data
       (KiwiData product title vendor type_ (Some images) variants)
       html_content sp product_url w).1 in
  (rec_of [A] !! "Image2" = Some (absolute_url A)
   /\ rec_of [A] !! "Ext Images" = Some [])
  /\ (rec_of [A; B] !! "Image2" = Some (absolute_url A)
      /\ rec_of [A; B] !! "Ext Images" = Some (absolute_url B))
  /\ (rec_of (A :: B :: C :: more) !! "Image2" = Some (absolute_url A)
      /\ rec_of (A :: B :: C :: more) !! "Ext Images"
         = Some (absolute_url B ++ u "," ++ absolute_url C))
  /\ rec_of (A :: B :: C :: more) = rec_of [A; B; C].
Proof.
  intros rec_of. subst rec_of. cbv beta.
  rewrite !record_image2, !record_ext_images. cbn [kd_images default].
  split; [by split |]. split; [by split |]. split; [by split |].
  by rewrite !process_kiwi_data_eq.
Qed.

(** C4. For a non-empty variants list the Article is the sku of the first
    variant, and Sizes is the comma-join of the variant labels with
    duplicates removed, each label kept at its first occurrence (a variant
    whose public_title is missing or empty has no label, and every variant
    found by the extractor has one); the variants S/111, M/111, S/222 give
    Sizes = S,M and Article = 111; for an empty variants list both columns
    are empty. *)
Theorem sizes_and_article_from_variants
    (images : option (list pystr)) (v : variant) (rest : list variant) :
  let rec_of variants :=
    (process_kiwi_data
       (KiwiData product title vendor type_ images (Some variants))
       html_content sp product_url w).1 in
  let mk (l s : string) : variant := {[ "public_title" := u l; "sku" := u s ]} in
  rec_of (v :: rest) !! "Article" = Some (get v "sku" [])
  /\ rec_of (v :: rest) !! "Sizes"
     = Some (join (u ",") (dedup_first (labels (v :: rest))))
  /\ rec_of [mk "S" "111"; mk "M" "111"; mk "S" "222"] !! "Sizes" = Some (u "S,M")
  /\ rec_of [mk "S" "111"; mk "M" "111"; mk "S" "222"] !! "Article" = Some (u "111")
  /\ rec_of [] !! "Article" = Some []
  /\ rec_of [] !! "Sizes" = Some []
  /\ (forall page,
        labels (extract_variants page)
        = map (fun v => get v "public_title" []) (extract_variants page)).
Proof.
  intros rec_of mk. subst rec_of. cbv beta.
  rewrite !record_article, !record_sizes. cbn [kd_variants default].
  unfold sizes_str_of. cbv zeta. rewrite !join_nil_or, !sizes_of_dedup.
  repeat split. apply extract_variants_labels.
Qed.

End BuilderFields.

(** ** Description fallback and extraction failure *)

Section ExtractionClaims.
Context `{Externals}.


Lemma not_truthy_nil (s : pystr) : truthy s = false -> s = [].
Proof. by destruct s. Qed.





Lemma extract_product_data_regex_parsed html_content sp product_url w :
  BeautifulSoup html_content = Some sp ->
  exists r w',
    extract_product_data_regex html_content product_url w = (Ret r, w')
    /\ dom r = list_to_set FIELDNAMES.
Proof.
  intros Hsp. unfold extract_product_data_regex. rewrite Hsp. cbv zeta.
  match goal with
  | |- context [process_kiwi_data ?k ?h ?s ?p ?w] =>
      pose proof (process_kiwi_data_dom k h s p w) as Hdom;
      destruct (process_kiwi_data k h s p w) as [r0 w0]
  end.
  by exists r0, w0.
Qed.

Lemma extract_product_data_regex_rejected html_content product_url w :
  BeautifulSoup html_content = None ->
  extract_product_data_regex html_content product_url w = (Exn, w).
Proof. intros Hsp. unfold extract_product_data_regex. by rewrite Hsp. Qed.

Lemma extract_product_data_regex_dom html_content product_url w r w' :
  extract_product_data_regex html_content product_url w = (Ret r, w') ->
  dom r = list_to_set FIELDNAMES.
Proof.
  destruct (BeautifulSoup html_content) as [sp|] eqn:Hsp.
  - destruct (extract_product_data_regex_parsed html_content sp product_url w Hsp)
      as (r0 & w0 & -> & Hdom).
    by intros [= <- <-].
  - by rewrite extract_product_data_regex_rejected.
Qed.

Lemma extract_product_data_rejected html_content product_url w :
  BeautifulSoup html_content = None ->
  extract_product_data html_content product_url w = (Exn, w).
Proof. intros Hsp. unfold extract_product_data. by rewrite Hsp. Qed.

Lemma extract_product_data_some html_content product_url w r w' :
  extract_product_data html_content product_url w = (Ret (Some r), w') ->
  dom r = list_to_set FIELDNAMES.
Proof.
  unfold extract_product_data.
  destruct (BeautifulSoup html_content) as [sp|]; [|discriminate].
  destruct (re_search KIWI_RE html_content); [|discriminate].
  match goal with
  | |- context [extract_product_data_regex ?h ?p ?w] =>
      pose proof (extract_product_data_regex_dom h p w) as Hdom;
      destruct (extract_product_data_regex h p w) as [[r0|] w0]
  end; [|discriminate].
  intros [= <- <-]. by eapply Hdom.
Qed.

Lemma extract_product_data_outcome
    (html_content : pystr) (sp : soup) (product_url : option pystr) (w : world) :
  BeautifulSoup html_content = Some sp ->
  match re_search KIWI_RE html_content with
  | None => extract_product_data html_content product_url w = (Ret None, w)
  | Some _ =>
      exists r w',
        extract_product_data html_content product_url w = (Ret (Some r), w')
        /\ dom r = list_to_set FIELDNAMES
  end.
Proof.
  intros Hsp. destruct (re_search KIWI_RE html_content) as [m|] eqn:Hm.
  - unfold extract_product_data. rewrite Hsp, Hm.
    match goal with
    | |- context [extract_product_data_regex ?h ?p ?w] =>
        destruct (extract_product_data_regex_parsed h sp p w Hsp)
          as (r0 & w0 & -> & Hdom)
    end.
    by exists r0, w0.
  - unfold extract_product_data. by rewrite Hsp, Hm.
Qed.

(** C5, as it stands, fails: the page is handed to the HTML parser before
    the data block is looked for (parser.py 45), and when the parser
    rejects the page the exception leaves [extract_product_data], which
    then returns neither None nor a record.  Here the page holds no data
    block. *)
Lemma extract_product_data_raises_on_rejected_page :
  re_search KIWI_RE marked_page = None
  /\ @BeautifulSoup toy_externals marked_page = None
  /\ @extract_product_data toy_externals marked_page None 0%nat = (Exn, 0%nat)
  /\ @extract_product_data toy_externals marked_page None 0%nat
     ≠ (Ret None, 0%nat).
Proof. repeat split; [by vm_compute .. | discriminate]. Qed.

(** C5, amended. For a page that the HTML parser accepts: when the
    KiwiSizing.data assignment is not found in the page text,
    [extract_product_data] returns no mapping at all (None) and no record
    with empty fields; whenever the pattern matches, a record is returned.
    The pattern matches exactly when the page holds KiwiSizing.data, blanks,
    an equals sign, blanks, an opening brace and, further on, a closing
    brace followed by a semicolon. *)
Theorem extract_product_data_fails_without_data_block
    (html_content : pystr) (sp : soup) (product_url : option pystr) (w : world) :
  BeautifulSoup html_content = Some sp ->
  match re_search KIWI_RE html_content with
  | None => extract_product_data html_content product_url w = (Ret None, w)
  | Some _ =>
      exists r w',
        extract_product_data html_content product_url w = (Ret (Some r), w')
        /\ dom r = list_to_set FIELDNAMES
  end
  /\ (re_search KIWI_RE html_content = None <-> ~ occurs KIWI_RE html_content)
  /\ (occurs KIWI_RE html_content
      <-> exists pre ws1 ws2 body post,
            html_content
            = pre ++ u "KiwiSizing.data" ++ ws1 ++ u "=" ++ ws2 ++ u "{"
                ++ body ++ u "};" ++ post
            /\ forallb isspace ws1 = true /\ forallb isspace ws2 = true).
Proof.
  intros Hsp. split; [by eapply extract_product_data_outcome |].
  split; [apply re_search_none | apply occurs_kiwi].
Qed.

End ExtractionClaims.

Lemma extract_product_data_fails_without_data_block_witness :
  @extract_product_data toy_externals (u "<html></html>") None 0%nat
  = (Ret None, 0%nat)
  /\ exists r w',
       @extract_product_data toy_externals toy_page None 0%nat
       = (Ret (Some r), w')
       /\ dom r = list_to_set FIELDNAMES.
Proof.
  split.
  - destruct (@extract_product_data_fails_without_data_block toy_externals
                (u "<html></html>") (u "<html></html>") None 0%nat eq_refl)
      as [Hnone _].
    exact Hnone.
  - destruct (@extract_product_data_fails_without_data_block toy_externals
                toy_page toy_page None 0%nat eq_refl) as [Hsome _].
    exact Hsome.
Defined.

(** ** Quote cleaning and text files *)

Lemma replace_char (s : pystr) (c : N) :
  replace s [c] [] = List.filter (fun x => negb (x =? c)) s.
Proof.
  unfold replace. induction s as [|x s IH]; [done |].
  cbn [replace_from startswith length Nat.sub app List.filter].
  rewrite andb_true_r. destruct (x =? c); cbn [negb]; by rewrite IH.
Qed.

Lemma remove_quotes_filter (value : pystr) :
  remove_quotes value = List.filter not_ascii_quote value.
Proof.
  unfold remove_quotes. rewrite !replace_char, !filter_filter_and.
  apply List.filter_ext. intros c. unfold not_ascii_quote.
  by destruct (c =? DQUOTE), (c =? APOSTROPHE).
Qed.

Lemma concat_split_lines (s : pystr) : concat (split_lines s) = s.
Proof.
  induction s as [|c s IH]; [done |]. cbn [split_lines].
  destruct (c =? LF); [by cbn; rewrite IH |].
  destruct (split_lines s) as [|line lines]; cbn in *; by rewrite <- IH.
Qed.

Lemma cleaned_lines_filter (content : pystr) :
  writelines
    (map (fun line =>
            replace (replace (replace line [DQUOTE] []) [APOSTROPHE] []) [DQUOTE] [])
         (readlines content))
  = List.filter not_ascii_quote (universal_newlines content).
Proof.
  unfold writelines, readlines.
  rewrite (map_ext _ (List.filter not_ascii_quote))
    by (intros line; apply (remove_quotes_filter line)).
  by rewrite concat_filter_map, concat_split_lines.
Qed.

Lemma exists_file_true (fs : filesystem) (name : string) (content : pystr) :
  fs !! name = Some content -> exists_file fs name = true.
Proof. intros Hf. apply bool_decide_eq_true. by exists content. Qed.

Lemma exists_file_false (fs : filesystem) (name : string) :
  fs !! name = None -> exists_file fs name = false.
Proof. intros Hf. apply bool_decide_eq_false. rewrite Hf. by intros [? ?]. Qed.

Lemma clean_csv_file_content (fs : filesystem) (name : string) (content : pystr) :
  fs !! name = Some content ->
  clean_csv_file name fs
  = <[name := List.filter not_ascii_quote (universal_newlines content)]> fs.
Proof.
  intros Hf. unfold clean_csv_file.
  rewrite (exists_file_true _ _ _ Hf), Hf. cbn [negb default].
  by rewrite cleaned_lines_filter.
Qed.

Lemma clean_csv_file_missing (fs : filesystem) (name : string) :
  fs !! name = None -> clean_csv_file name fs = fs.
Proof. intros Hf. unfold clean_csv_file. by rewrite (exists_file_false _ _ Hf). Qed.

Lemma clean_existing_csv_eq (name : string) (fs : filesystem) :
  clean_existing_csv name fs = clean_csv_file name fs.
Proof.
  unfold clean_existing_csv, clean_csv_file. by destruct (exists_file fs name).
Qed.

Lemma script_clean_csv_file_eq (name : string) (fs : filesystem) :
  CleanCsv.clean_csv_file name fs = clean_csv_file name fs.
Proof. reflexivity. Qed.

(** *** Universal newlines *)

Lemma un_other (c : N) (s : pystr) :
  c ≠ CR -> universal_newlines (c :: s) = c :: universal_newlines s.
Proof. intros Hc. cbn [universal_newlines]. by apply N.eqb_neq in Hc as ->. Qed.

Lemma un_cr_lf (s : pystr) :
  universal_newlines (CR :: LF :: s) = LF :: universal_newlines s.
Proof. reflexivity. Qed.

Lemma un_cr_other (c : N) (s : pystr) :
  c ≠ LF -> universal_newlines (CR :: c :: s) = LF :: universal_newlines (c :: s).
Proof.
  intros Hc. cbn [universal_newlines]. rewrite N.eqb_refl.
  by apply N.eqb_neq in Hc as ->.
Qed.

(** Induction along the cases of [universal_newlines]. *)
Lemma un_ind (P : pystr -> Prop) :
  P [] ->
  (forall c s, c ≠ CR -> P s -> P (c :: s)) ->
  P [CR] ->
  (forall s, P s -> P (CR :: LF :: s)) ->
  (forall c s, c ≠ LF -> P (c :: s) -> P (CR :: c :: s)) ->
  forall s, P s.
Proof.
  intros Hnil Hother Hcr Hcrlf Hcro s.
  assert (forall n (t : pystr), (length t <= n)%nat -> P t) as Hall.
  { induction n as [|n IH]; intros [|c t] Hlen; simpl in Hlen; try done; try lia.
    destruct (decide (c = CR)) as [-> | Hc].
    - destruct t as [|c' t]; [done |].
      destruct (decide (c' = LF)) as [-> | Hc'].
      + apply Hcrlf, IH. simpl in Hlen. lia.
      + apply Hcro; [done |]. apply IH. lia.
    - apply Hother; [done |]. apply IH. lia. }
  by apply (Hall (length s)).
Qed.

Lemma un_no_cr (s : pystr) : Forall (fun c => c ≠ CR) (universal_newlines s).
Proof.
  induction s using un_ind.
  - constructor.
  - rewrite un_other by done. by constructor.
  - by repeat constructor.
  - rewrite un_cr_lf. by constructor.
  - rewrite un_cr_other by done. by constructor.
Qed.

Lemma un_id (s : pystr) :
  Forall (fun c => c ≠ CR) s -> universal_newlines s = s.
Proof.
  induction 1 as [|c s Hc Hs IH]; [done |].
  by rewrite un_other, IH.
Qed.

Lemma un_idempotent (s : pystr) :
  universal_newlines (universal_newlines s) = universal_newlines s.
Proof. apply un_id, un_no_cr. Qed.

Lemma un_app_lf (s1 s2 : pystr) :
  universal_newlines (s1 ++ LF :: s2)
  = universal_newlines (s1 ++ [LF]) ++ universal_newlines s2.
Proof.
  induction s1 using un_ind.
  - reflexivity.
  - cbn [app]. rewrite !un_other by done. cbn [app]. by f_equal.
  - reflexivity.
  - cbn [app]. rewrite !un_cr_lf. cbn [app]. by f_equal.
  - cbn [app] in *. rewrite !un_cr_other by done. cbn [app]. by f_equal.
Qed.

Lemma un_app_no_cr (s1 s2 : pystr) :
  Forall (fun c => c ≠ CR) s1 ->
  universal_newlines (s1 ++ s2) = s1 ++ universal_newlines s2.
Proof.
  induction 1 as [|c s Hc Hs IH]; [done |].
  cbn [app]. by rewrite un_other, IH.
Qed.

Lemma un_Forall (P : N -> Prop) (s : pystr) :
  P LF -> Forall P s -> Forall P (universal_newlines s).
Proof.
  intros Hlf. induction s using un_ind; intros Hs.
  - constructor.
  - rewrite un_other by done. inversion Hs; subst. constructor; auto.
  - by repeat constructor.
  - rewrite un_cr_lf. inversion Hs as [|? ? _ Hs']; subst.
    inversion Hs'; subst. constructor; auto.
  - rewrite un_cr_other by done. inversion Hs; subst. constructor; auto.
Qed.

Lemma filter_id {A} (p : A -> bool) (l : list A) :
  Forall (fun x => p x = true) l -> List.filter p l = l.
Proof.
  induction 1 as [|x l Hx Hl IH]; [done |]. simpl. by rewrite Hx, IH.
Qed.

Lemma filter_Forall {A} (p : A -> bool) (l : list A) :
  Forall (fun x => p x = true) (List.filter p l).
Proof.
  induction l as [|x l IH]; simpl; [constructor |].
  destruct (p x) eqn:Hx; [by constructor | done].
Qed.

Lemma Forall_filter_bool {A} (P : A -> Prop) (p : A -> bool) (l : list A) :
  Forall P l -> Forall P (List.filter p l).
Proof.
  induction 1 as [|x l Hx Hl IH]; simpl; [constructor |].
  destruct (p x); [by constructor | done].
Qed.

Lemma cleaned_text_fixpoint (content : pystr) :
  let after := List.filter not_ascii_quote (universal_newlines content) in
  List.filter not_ascii_quote (universal_newlines after) = after.
Proof.
  cbv zeta. rewrite un_id.
  - rewrite filter_filter_and. apply List.filter_ext. intros c. apply andb_diag.
  - apply Forall_filter_bool, un_no_cr.
Qed.

Lemma clean_csv_file_idempotent (name : string) (fs : filesystem) :
  clean_csv_file name (clean_csv_file name fs) = clean_csv_file name fs.
Proof.
  destruct (fs !! name) as [content|] eqn:Hf.
  - rewrite (clean_csv_file_content fs name content Hf).
    erewrite clean_csv_file_content by apply lookup_insert_eq.
    by rewrite cleaned_text_fixpoint, insert_insert_eq.
  - by rewrite !(clean_csv_file_missing fs name Hf).
Qed.

(** C10, as stated, fails: cleaning a file that holds a, CR, LF, b leaves
    a, LF, b; the carriage return, which is none of the three quote
    characters, is not preserved.  Likewise a last line made of quote
    characters only and without terminator disappears: a, LF, double quote
    is read as two lines and cleaned to the single line a, LF. *)
Lemma clean_csv_file_drops_carriage_return :
  clean_csv_file "out.csv" {[ "out.csv" := A_CR_LF_B ]} !! "out.csv"
  = Some [97; LF; 98]
  /\ CleanCsv.clean_csv_file "out.csv" {[ "out.csv" := A_CR_LF_B ]} !! "out.csv"
     = Some [97; LF; 98]
  /\ ~ deletes_only_quotes A_CR_LF_B [97; LF; 98]
  /\ clean_csv_file "out.csv" {[ "out.csv" := [97; LF; DQUOTE] ]} !! "out.csv"
     = Some [97; LF]
  /\ length (readlines [97; LF; DQUOTE]) = 2%nat
  /\ length (readlines [97; LF]) = 1%nat.
Proof.
  split; [|split; [|split; [|split]]].
  - by erewrite clean_csv_file_content, lookup_insert_eq
      by apply lookup_singleton_eq.
  - rewrite script_clean_csv_file_eq.
    by erewrite clean_csv_file_content, lookup_insert_eq
      by apply lookup_singleton_eq.
  - unfold deletes_only_quotes. vm_compute. discriminate.
  - by erewrite clean_csv_file_content, lookup_insert_eq
      by apply lookup_singleton_eq.
  - split; reflexivity.
Qed.

(** C10, amended. The cleaning pass of parser.py and of clean_csv.py is
    idempotent; on an existing file it rewrites every line terminator
    (CR LF, CR, LF) as LF, so the number of line terminators is kept,
    deletes both ASCII quote characters, and keeps, in order, every other
    character apart from the three quote characters. *)
Theorem clean_csv_file_idempotent_and_preserving
    (name : string) (fs : filesystem) (content : pystr) :
  fs !! name = Some content ->
  exists after,
    clean_csv_file name fs = <[name := after]> fs
    /\ CleanCsv.clean_csv_file name fs = <[name := after]> fs
    /\ clean_csv_file name (clean_csv_file name fs) = clean_csv_file name fs
    /\ List.filter (fun c => negb (is_spec_quote c)) after
       = List.filter (fun c => negb (is_spec_quote c)) (universal_newlines content)
    /\ Forall (fun c => c ≠ DQUOTE /\ c ≠ APOSTROPHE) after
    /\ line_count after = line_count content.
Proof.
  intros Hf. exists (List.filter not_ascii_quote (universal_newlines content)).
  split; [by apply clean_csv_file_content |].
  split; [by rewrite script_clean_csv_file_eq; apply clean_csv_file_content |].
  split; [apply clean_csv_file_idempotent |].
  split; [|split].
  - rewrite filter_filter_and. apply List.filter_ext. intros c.
    unfold not_ascii_quote, is_spec_quote.
    by destruct (c =? DQUOTE), (c =? APOSTROPHE), (c =? RDQUOTE).
  - eapply Forall_impl; [apply filter_Forall |]. intros c. cbv beta.
    unfold not_ascii_quote. rewrite andb_true_iff, !negb_true_iff, !N.eqb_neq.
    done.
  - unfold line_count. rewrite un_id by apply Forall_filter_bool, un_no_cr.
    rewrite filter_filter_and. f_equal. apply List.filter_ext. intros c.
    destruct (c =? LF) eqn:Hc; [|apply andb_false_r].
    apply N.eqb_eq in Hc. by subst c.
Qed.

Lemma clean_csv_file_idempotent_and_preserving_witness :
  exists after,
    clean_csv_file "out.csv" {[ "out.csv" := A_CR_LF_B ]}
    = <["out.csv" := after]> {[ "out.csv" := A_CR_LF_B ]}
    /\ line_count after = line_count A_CR_LF_B.
Proof.
  destruct (clean_csv_file_idempotent_and_preserving
              "out.csv" {[ "out.csv" := A_CR_LF_B ]} A_CR_LF_B)
    as (after & H1 & _ & _ & _ & _ & H2).
  - apply lookup_singleton_eq.
  - exists after. split; [exact H1 | exact H2].
Defined.

(** ** The rows written by the sink *)

Lemma well_keyed_of_dom (r : product_record) :
  dom r = list_to_set FIELDNAMES -> well_keyed r.
Proof.
  intros Hdom. split; [|by rewrite Hdom].
  intros ->. rewrite dom_empty_L in Hdom.
  assert ("URL" ∈ (∅ : gset string)) as Hin by (rewrite Hdom; set_solver).
  set_solver.
Qed.

Lemma is_record_writable (r : product_record) :
  writable r -> is_record (Some r) = true.
Proof.
  intros [[Hne _] _]. unfold is_record.
  by rewrite bool_decide_eq_false_2.
Qed.

Lemma forallb_Forall {A} (p : A -> bool) (l : list A) :
  forallb p l = true <-> Forall (fun x => p x = true) l.
Proof.
  induction l as [|x l IH]; cbn [forallb].
  - split; [constructor | done].
  - rewrite andb_true_iff, IH, Forall_cons. tauto.
Qed.

Lemma Forall_join (P : N -> Prop) (sep : pystr) (parts : list pystr) :
  Forall P sep -> Forall (Forall P) parts -> Forall P (join sep parts).
Proof.
  intros Hsep. induction 1 as [|x parts Hx Hparts IH]; [constructor |].
  cbn [join]. destruct parts as [|y parts]; [done |].
  apply Forall_app. split; [done |]. apply Forall_app. by split.
Qed.

Lemma Forall_csv_field (P : N -> Prop) (value : pystr) :
  P BACKSLASH -> Forall P value -> Forall P (csv_field value).
Proof.
  intros Hb. unfold csv_field. induction 1 as [|c value Hc Hvalue IH]; [constructor |].
  cbn [flat_map]. destruct (needs_escape c); cbn [app]; repeat constructor; done.
Qed.

Lemma Forall_fields (P : N -> Prop) (r : product_record) :
  P BACKSLASH -> P SEMICOLON ->
  (forall key, Forall P (get (clean_product_data r) key [])) ->
  Forall P (join [SEMICOLON]
              (map csv_field
                 (map (fun key => get (clean_product_data r) key []) FIELDNAMES))).
Proof.
  intros Hb Hs Hv. apply Forall_join; [by repeat constructor |].
  rewrite map_map. apply Forall_forall. intros field Hin.
  apply list_elem_of_In, in_map_iff in Hin as (key & <- & _).
  by apply Forall_csv_field.
Qed.

Lemma remove_quotes_encodable (value : pystr) :
  forallb encodable value = true ->
  Forall (fun c => encodable c = true) (remove_quotes value).
Proof.
  intros Hv. apply forallb_Forall in Hv. rewrite remove_quotes_filter.
  by apply Forall_filter_bool.
Qed.

Lemma raw_row_encodable (r : product_record) :
  encodable_record r -> forallb encodable (raw_row r) = true.
Proof.
  intros Hr. apply forallb_Forall. unfold raw_row, csv_row.
  apply Forall_app. split; [|by repeat constructor].
  apply Forall_fields; [done | done |]. intros key.
  unfold get, clean_product_data. rewrite lookup_fmap.
  destruct (r !! key) as [value|] eqn:Hkey; [|constructor].
  apply remove_quotes_encodable. by eapply Hr.
Qed.

Lemma writerow_writable (r : product_record) :
  writable r -> writerow FIELDNAMES (clean_product_data r) = Some (raw_row r).
Proof.
  intros [[_ Hdom] Henc]. unfold writerow.
  rewrite bool_decide_eq_true_2.
  - cbv zeta. fold (raw_row r). by rewrite raw_row_encodable.
  - unfold clean_product_data. by rewrite dom_fmap_L.
Qed.

Lemma records_some (l : list product_record) : records (Some <$> l) = l.
Proof.
  unfold records. induction l as [|r l IH]; [done |].
  cbn. by rewrite IH.
Qed.

Lemma all_writable_some (l : list product_record) :
  Forall writable l -> all_writable (Some <$> l).
Proof.
  unfold all_writable. induction 1 as [|r l Hr Hl IH]; cbn; constructor; [|done].
  by intros r' [= <-].
Qed.

Lemma write_rows_ok (l : list (option product_record)) (written : pystr) :
  all_writable l ->
  write_rows l written = (written ++ concat (map raw_row (records l)), true).
Proof.
  intros Hl. revert written.
  induction Hl as [|entry l Hentry Hl IH]; intros written; cbn [write_rows].
  { by rewrite app_nil_r. }
  destruct entry as [r|].
  - specialize (Hentry r eq_refl).
    rewrite (is_record_writable r Hentry). cbv zeta. unfold default. cbn [id].
    rewrite (writerow_writable r Hentry), IH.
    unfold records. cbn. by rewrite <- app_assoc.
  - cbn [is_record]. by rewrite IH.
Qed.

(** *** No ASCII quote reaches a row *)

Lemma Forall_cleaned_value (r : product_record) (key : string) :
  Forall (fun c => not_ascii_quote c = true) (get (clean_product_data r) key []).
Proof.
  unfold get, clean_product_data. rewrite lookup_fmap.
  destruct (r !! key) as [value|]; [|constructor].
  change (Forall (fun c => not_ascii_quote c = true) (remove_quotes value)).
  rewrite remove_quotes_filter. apply filter_Forall.
Qed.

Lemma raw_row_no_quote (r : product_record) :
  Forall (fun c => not_ascii_quote c = true) (raw_row r).
Proof.
  unfold raw_row, csv_row. apply Forall_app. split.
  - apply Forall_fields; [done | done |]. apply Forall_cleaned_value.
  - by repeat constructor.
Qed.

Lemma stored_row_no_quote (r : product_record) :
  Forall (fun c => not_ascii_quote c = true) (stored_row r).
Proof. apply un_Forall; [done |]. apply raw_row_no_quote. Qed.

Lemma stored_rows_no_quote (l : list product_record) :
  Forall (fun c => not_ascii_quote c = true) (concat (map stored_row l)).
Proof.
  induction l as [|r l IH]; cbn; [constructor |].
  apply Forall_app. split; [apply stored_row_no_quote | done].
Qed.

Lemma stored_rows_no_cr (l : list product_record) :
  Forall (fun c => c ≠ CR) (concat (map stored_row l)).
Proof.
  induction l as [|r l IH]; cbn; [constructor |].
  apply Forall_app. split; [apply un_no_cr | done].
Qed.

(** *** Reading back what was written *)

Lemma raw_row_terminated (r : product_record) :
  exists body, raw_row r = body ++ [LF].
Proof.
  unfold raw_row, csv_row, LINETERMINATOR.
  eexists (_ ++ [CR]). by rewrite <- app_assoc.
Qed.

Lemma un_raw_rows (l : list product_record) (rest : pystr) :
  universal_newlines (concat (map raw_row l) ++ rest)
  = concat (map stored_row l) ++ universal_newlines rest.
Proof.
  induction l as [|r l IH]; [done |].
  cbn [map concat]. destruct (raw_row_terminated r) as [body Hbody].
  unfold stored_row at 1. rewrite Hbody, <- !app_assoc. cbn [app].
  by rewrite un_app_lf, IH.
Qed.

Lemma un_header_rows (l : list product_record) :
  universal_newlines (writeheader FIELDNAMES ++ concat (map raw_row l))
  = stored_header ++ concat (map stored_row l).
Proof.
  pose proof (un_raw_rows l []) as Hrows. rewrite !app_nil_r in Hrows.
  assert (writeheader FIELDNAMES = (removelast stored_header ++ [CR]) ++ [LF])
    as -> by (vm_compute; reflexivity).
  assert (universal_newlines ((removelast stored_header ++ [CR]) ++ [LF])
          = stored_header) as Hheader by (vm_compute; reflexivity).
  rewrite <- (app_assoc _ [LF]). cbn [app].
  by rewrite un_app_lf, Hheader, Hrows.
Qed.

Lemma stored_header_clean :
  Forall (fun c => not_ascii_quote c = true) stored_header
  /\ Forall (fun c => c ≠ CR) stored_header.
Proof.
  split; apply Forall_forall; intros c Hc;
    vm_compute in Hc; repeat (apply elem_of_cons in Hc as [-> | Hc]; [done |]);
    by apply not_elem_of_nil in Hc.
Qed.

Lemma stored_file_clean (l : list product_record) :
  Forall (fun c => not_ascii_quote c = true) (stored_header ++ concat (map stored_row l))
  /\ Forall (fun c => c ≠ CR) (stored_header ++ concat (map stored_row l)).
Proof.
  destruct stored_header_clean as [Hq Hcr].
  split; apply Forall_app; split; auto using stored_rows_no_quote, stored_rows_no_cr.
Qed.

(** ** Writing and appending *)

Lemma cleaned_stored_file (l : list product_record) :
  List.filter not_ascii_quote (stored_header ++ concat (map stored_row l))
  = stored_header ++ concat (map stored_row l).
Proof. apply filter_id, stored_file_clean. Qed.

Lemma save_to_csv_fresh (l : list (option product_record)) (f : string)
    (append : bool) (fs : filesystem) :
  l ≠ [] -> all_writable l -> append = false \/ fs !! f = None ->
  save_to_csv l f append fs
  = (Returned, <[f := stored_header ++ concat (map stored_row (records l))]> fs).
Proof.
  intros Hne Hl Hfresh. unfold save_to_csv.
  destruct l as [|entry l]; [done |].
  assert (append && (exists_file fs f && append) = false) as ->.
  { destruct Hfresh as [-> | Hf]; [done |].
    rewrite (exists_file_false _ _ Hf). by destruct append. }
  cbn [negb app]. rewrite (write_rows_ok _ _ Hl).
  erewrite clean_csv_file_content by apply lookup_insert_eq.
  by rewrite un_header_rows, cleaned_stored_file, insert_insert_eq.
Qed.

Lemma save_to_csv_append (l : list (option product_record)) (f : string)
    (fs : filesystem) (content : pystr) :
  l ≠ [] -> all_writable l -> fs !! f = Some content ->
  save_to_csv l f true fs
  = (Returned,
     <[f := List.filter not_ascii_quote
              (universal_newlines (content ++ concat (map raw_row (records l))))]> fs).
Proof.
  intros Hne Hl Hf. unfold save_to_csv.
  destruct l as [|entry l]; [done |].
  rewrite (exists_file_true _ _ _ Hf), Hf. cbn [andb negb default].
  unfold default. cbn [id]. rewrite (write_rows_ok _ _ Hl).
  erewrite clean_csv_file_content by apply lookup_insert_eq.
  by rewrite insert_insert_eq.
Qed.

Lemma append_to_stored_file (l1 l2 : list product_record) :
  List.filter not_ascii_quote
    (universal_newlines
       ((stored_header ++ concat (map stored_row l1)) ++ concat (map raw_row l2)))
  = stored_header ++ concat (map stored_row (l1 ++ l2)).
Proof.
  destruct (stored_file_clean l1) as [Hq Hcr].
  rewrite (un_app_no_cr _ _ Hcr).
  pose proof (un_raw_rows l2 []) as Hrows. rewrite !app_nil_r in Hrows.
  rewrite Hrows, <- app_assoc, <- concat_app, <- map_app.
  apply cleaned_stored_file.
Qed.

(** *** Counting lines *)

Lemma count_lf_app (s1 s2 : pystr) : count_lf (s1 ++ s2) = (count_lf s1 + count_lf s2)%nat.
Proof. unfold count_lf. by rewrite List.filter_app, length_app. Qed.

Lemma count_lf_none (s : pystr) : Forall (fun c => c ≠ LF) s -> count_lf s = 0%nat.
Proof.
  unfold count_lf. induction 1 as [|c s Hc Hs IH]; [done |].
  cbn [List.filter]. by apply N.eqb_neq in Hc as ->.
Qed.

Lemma stored_row_single_line (r : product_record) :
  single_line r -> count_lf (stored_row r) = 1%nat.
Proof.
  intros Hr. unfold stored_row, raw_row, csv_row, LINETERMINATOR.
  assert (Forall (fun c => c ≠ CR /\ c ≠ LF)
            (join [SEMICOLON]
               (map csv_field
                  (map (fun key => get (clean_product_data r) key []) FIELDNAMES))))
    as Hfields.
  { apply Forall_fields; [done | done |]. intros key.
    unfold get, clean_product_data. rewrite lookup_fmap.
    destruct (r !! key) as [value|] eqn:Hkey; [|constructor].
    change (Forall (fun c => c ≠ CR /\ c ≠ LF) (remove_quotes value)).
    rewrite remove_quotes_filter. apply Forall_filter_bool. by eapply Hr. }
  rewrite un_app_no_cr by (eapply Forall_impl; [exact Hfields | by intros c []]).
  rewrite count_lf_app, count_lf_none
    by (eapply Forall_impl; [exact Hfields | by intros c []]).
  reflexivity.
Qed.

Lemma stored_rows_line_count (l : list product_record) :
  Forall single_line l -> count_lf (concat (map stored_row l)) = length l.
Proof.
  induction 1 as [|r l Hr Hl IH]; [done |].
  cbn [map concat length]. by rewrite count_lf_app, stored_row_single_line, IH.
Qed.

Lemma stored_file_line_count (l : list product_record) :
  Forall single_line l ->
  line_count (stored_header ++ concat (map stored_row l)) = S (length l).
Proof.
  intros Hl. unfold line_count. rewrite un_id by apply stored_file_clean.
  fold (count_lf (stored_header ++ concat (map stored_row l))).
  by rewrite count_lf_app, stored_rows_line_count.
Qed.

(** *** Records that the writer refuses *)

Lemma record14_encodable url id name brand article gender image2 ext description
    sizes color category id2 combine :
  Forall (fun value => forallb encodable value = true)
    [url; id; name; brand; article; gender; image2; ext; description; sizes;
     color; category; id2; combine] ->
  encodable_record
    (record14 url id name brand article gender image2 ext description sizes
       color category id2 combine).
Proof.
  intros Hall key value Hkey. unfold record14 in Hkey.
  apply elem_of_list_to_map_2 in Hkey.
  rewrite Forall_forall in Hall. apply Hall.
  repeat (apply elem_of_cons in Hkey as [[= _ ->]|Hkey];
          [set_solver |]).
  by apply elem_of_nil in Hkey.
Qed.

Lemma u_encodable (s : string) : forallb encodable (u s) = true.
Proof.
  apply forallb_Forall. induction s as [|c s IH]; cbn [u]; constructor; [|done].
  destruct c as [[] [] [] [] [] [] [] []]; reflexivity.
Qed.

Lemma write_rows_app (pre rest : list (option product_record)) (written : pystr) :
  all_writable pre ->
  write_rows (pre ++ rest) written
  = write_rows rest (written ++ concat (map raw_row (records pre))).
Proof.
  intros Hpre. revert written.
  induction Hpre as [|entry pre Hentry Hpre IH]; intros written.
  { cbn. by rewrite app_nil_r. }
  cbn [app write_rows]. destruct entry as [r|].
  - specialize (Hentry r eq_refl).
    rewrite (is_record_writable r Hentry). cbv zeta. unfold default. cbn [id].
    rewrite (writerow_writable r Hentry), IH.
    unfold records. cbn. by rewrite <- app_assoc.
  - cbn [is_record]. by rewrite IH.
Qed.

Lemma writerow_foreign_key (r : product_record) :
  ~ dom r ⊆ (list_to_set FIELDNAMES : gset string) ->
  writerow FIELDNAMES (clean_product_data r) = None.
Proof.
  intros Hdom. unfold writerow, clean_product_data.
  rewrite bool_decide_eq_false_2; [done |]. by rewrite dom_fmap_L.
Qed.

Lemma elem_of_join (sep part : pystr) (parts : list pystr) (c : N) :
  part ∈ parts -> c ∈ part -> c ∈ join sep parts.
Proof.
  intros Hpart Hc. induction parts as [|x parts IH]; [by apply elem_of_nil in Hpart |].
  cbn [join]. apply elem_of_cons in Hpart as [<- | Hpart].
  - destruct parts; [done |]. apply elem_of_app. by left.
  - destruct parts as [|y parts]; [by apply elem_of_nil in Hpart |].
    apply elem_of_app. right. apply elem_of_app. right. by apply IH.
Qed.

Lemma elem_of_csv_field (value : pystr) (c : N) : c ∈ value -> c ∈ csv_field value.
Proof.
  unfold csv_field. induction value as [|x value IH]; [done |].
  intros [<- | Hc]%elem_of_cons; cbn [flat_map]; apply elem_of_app.
  - left. destruct (needs_escape c); [apply elem_of_cons; right |];
      apply list_elem_of_here.
  - right. by apply IH.
Qed.

(** A character under a column that is no ASCII quote reaches the row. *)
Lemma raw_row_holds (r : product_record) (key : string) (value : pystr) (c : N) :
  key ∈ FIELDNAMES -> r !! key = Some value -> c ∈ value ->
  not_ascii_quote c = true -> c ∈ raw_row r.
Proof.
  intros Hkey Hvalue Hc Hq. unfold raw_row, csv_row. apply elem_of_app. left.
  eapply (elem_of_join _ (csv_field (remove_quotes value))).
  - apply list_elem_of_fmap. exists (remove_quotes value). split; [done |].
    apply list_elem_of_fmap. exists key. split; [|done].
    unfold get, clean_product_data. by rewrite lookup_fmap, Hvalue.
  - apply elem_of_csv_field. rewrite remove_quotes_filter.
    apply list_elem_of_In, filter_In. split; [by apply list_elem_of_In | done].
Qed.

Lemma encodable_not_quote (c : N) : encodable c = false -> not_ascii_quote c = true.
Proof.
  unfold encodable, not_ascii_quote, DQUOTE, APOSTROPHE.
  intros [Hlo _]%negb_false_iff%andb_true_iff. apply N.leb_le in Hlo.
  apply andb_true_iff. split; apply negb_true_iff, N.eqb_neq; lia.
Qed.

Lemma writerow_unencodable (r : product_record) (key : string) (value : pystr)
    (c : N) :
  key ∈ FIELDNAMES -> r !! key = Some value -> c ∈ value -> encodable c = false ->
  writerow FIELDNAMES (clean_product_data r) = None.
Proof.
  intros Hkey Hvalue Hc Henc. unfold writerow.
  destruct (bool_decide _); [|done]. cbv zeta. fold (raw_row r).
  destruct (forallb encodable (raw_row r)) eqn:Hrow; [|done].
  apply forallb_Forall in Hrow. rewrite Forall_forall in Hrow.
  rewrite Hrow in Henc; [done |].
  eapply raw_row_holds; [done | done | done |]. by apply encodable_not_quote.
Qed.

(** For a record that the loop does not skip and whose keys are columns,
    the row is written exactly when UTF-8 can encode its values. *)
Lemma writerow_well_keyed (r : product_record) :
  well_keyed r ->
  writerow FIELDNAMES (clean_product_data r)
  = if decide (encodable_record r) then Some (raw_row r) else None.
Proof.
  intros Hkeys. destruct (decide (encodable_record r)) as [Henc | Henc].
  { by apply writerow_writable. }
  destruct (writerow FIELDNAMES (clean_product_data r)) as [row|] eqn:Hrow; [|done].
  exfalso. apply Henc. intros key value Hkey.
  destruct (forallb encodable value) eqn:Hvalue; [done |].
  assert (exists c, c ∈ value /\ encodable c = false) as (c & Hc & Hbad).
  { clear -Hvalue. induction value as [|x value IH]; [done |].
    cbn [forallb] in Hvalue. apply andb_false_iff in Hvalue as [Hx | Hrest].
    - exists x. split; [by left | done].
    - destruct (IH Hrest) as (c & Hc & Hbad). exists c. split; [by right | done]. }
  assert (key ∈ FIELDNAMES) as Hin.
  { destruct Hkeys as [_ Hdom].
    apply (elem_of_list_to_set (C := gset string)), Hdom, elem_of_dom.
    by eexists. }
  by rewrite (writerow_unencodable r key value c) in Hrow.
Qed.

(** The loop over the records comes to its end exactly when UTF-8 can
    encode every record, for records whose keys are columns. *)
Lemma write_rows_flag (l : list (option product_record)) (written : pystr) :
  Forall (fun entry => forall r, entry = Some r -> well_keyed r) l ->
  (write_rows l written).2 = true <-> Forall encodable_record (records l).
Proof.
  intros Hl. revert written.
  induction Hl as [|entry l Hentry Hl IH]; intros written.
  { split; [constructor | done]. }
  cbn [write_rows]. destruct entry as [r|].
  - specialize (Hentry r eq_refl).
    assert (is_record (Some r) = true) as ->.
    { destruct Hentry as [Hne _]. unfold is_record. by rewrite bool_decide_eq_false_2. }
    cbv zeta. unfold default. cbn [id]. rewrite (writerow_well_keyed r Hentry).
    change (records (Some r :: l)) with (r :: records l). rewrite Forall_cons.
    destruct (decide (encodable_record r)) as [Henc | Henc].
    + rewrite IH. tauto.
    + cbn [snd]. split; [done | tauto].
  - cbn [is_record]. change (records (None :: l)) with (records l). apply IH.
Qed.

(** What [save_to_csv] leaves when the writer raises at a record. *)
Lemma save_to_csv_bad_record
    (pre post : list (option product_record)) (bad : product_record)
    (f : string) (fs : filesystem) :
  all_writable pre -> bad ≠ ∅ ->
  writerow FIELDNAMES (clean_product_data bad) = None ->
  save_to_csv (pre ++ Some bad :: post) f false fs
  = (Raised,
     <[f := writeheader FIELDNAMES ++ concat (map raw_row (records pre))]> fs)
  /\ (forall old, fs !! f = Some old ->
        save_to_csv (pre ++ Some bad :: post) f true fs
        = (Raised, <[f := old ++ concat (map raw_row (records pre))]> fs)).
Proof.
  intros Hpre Hne Hrow.
  assert (forall written,
            write_rows (pre ++ Some bad :: post) written
            = (written ++ concat (map raw_row (records pre)), false)) as Hw.
  { intros written. rewrite (write_rows_app _ _ _ Hpre). cbn [write_rows is_record].
    rewrite bool_decide_eq_false_2 by done. cbv zeta. unfold default. cbn [id negb].
    by rewrite Hrow. }
  assert (pre ++ Some bad :: post ≠ []) as Hl by (by destruct pre).
  split.
  - unfold save_to_csv. destruct (pre ++ Some bad :: post) as [|e l] eqn:Hel; [done |].
    cbn [andb negb app]. by rewrite Hw.
  - intros old Hold. unfold save_to_csv.
    destruct (pre ++ Some bad :: post) as [|e l] eqn:Hel; [done |].
    rewrite (exists_file_true _ _ _ Hold), Hold. cbn [andb negb].
    unfold default. cbn [id]. by rewrite Hw.
Qed.

Lemma sample_record_writable (name : string) : writable (sample_record name).
Proof.
  unfold sample_record. split; [apply well_keyed_of_dom, record14_dom |].
  apply record14_encodable. repeat constructor; apply u_encodable.
Qed.

Lemma quoted_record_writable : writable quoted_record.
Proof.
  unfold quoted_record. split; [apply well_keyed_of_dom, record14_dom |].
  apply record14_encodable. repeat constructor; apply u_encodable.
Qed.

(** C8, as it stands, fails: a value may hold a character that the file
    cannot encode.  Here two records are written, the second with a lone
    surrogate in its Name, and one is appended: the first call raises at
    the second record and leaves the header and one row, with the writer's
    line ends and without the cleaning pass; after the append the file
    holds the header and two rows, not three. *)
Lemma save_to_csv_loses_unencodable_record :
  let fs1 : filesystem :=
    {[ "out.csv" := writeheader FIELDNAMES ++ raw_row (sample_record "A") ]} in
  let final := stored_header ++ stored_row (sample_record "A")
               ++ stored_row (sample_record "B") in
  save_to_csv [Some (sample_record "A"); Some surrogate_record] "out.csv" false ∅
  = (Raised, fs1)
  /\ save_to_csv [Some (sample_record "B")] "out.csv" true fs1
     = (Returned, <["out.csv" := final]> fs1)
  /\ line_count final = 3%nat
  /\ line_count final ≠ (1 + (2 + 1))%nat.
Proof.
  cbv zeta. split; [|split; [|split]].
  - destruct (save_to_csv_bad_record [Some (sample_record "A")] [] surrogate_record
                "out.csv" ∅) as [Hraise _].
    + constructor; [|constructor]. intros r [= <-]. apply sample_record_writable.
    + intros Hempty. apply (f_equal (fun m => m !! "Name")) in Hempty.
      discriminate.
    + apply (writerow_unencodable _ "Name" [97; 55296; 98] 55296);
        [| reflexivity | | reflexivity].
      * unfold FIELDNAMES. do 2 apply list_elem_of_further. apply list_elem_of_here.
      * apply list_elem_of_further, list_elem_of_here.
    + cbn [app] in Hraise. rewrite Hraise. f_equal.
  - rewrite (save_to_csv_append _ _ _
               (writeheader FIELDNAMES ++ raw_row (sample_record "A")));
      [| discriminate
       | constructor; [|constructor]; intros r [= <-]; apply sample_record_writable
       | apply lookup_singleton_eq].
    do 2 f_equal.
  - vm_compute. reflexivity.
  - vm_compute. discriminate.
Qed.

(** C8, amended. Append-mode composition, for records that the writer
    accepts (not empty, their keys among the 14 columns, their values text
    that UTF-8 can encode): writing N records with append=false and then M
    records with append=true to the same file leaves one header row
    followed by the N+M rows of the records, in order (1+N+M lines when no
    value holds a line break); appending to an existing file adds rows
    after its content and writes no header, and without append, or when the
    file does not exist, the file is created anew with the header. *)
Theorem save_to_csv_append_composition
    (l1 l2 : list product_record) (f : string) (fs : filesystem) :
  l1 ≠ [] -> l2 ≠ [] -> Forall writable l1 -> Forall writable l2 ->
  let fs1 := (save_to_csv (Some <$> l1) f false fs).2 in
  let fs2 := (save_to_csv (Some <$> l2) f true fs1).2 in
  let final := stored_header ++ concat (map stored_row (l1 ++ l2)) in
  save_to_csv (Some <$> l1) f false fs
  = (Returned, <[f := stored_header ++ concat (map stored_row l1)]> fs)
  /\ save_to_csv (Some <$> l2) f true fs1 = (Returned, <[f := final]> fs)
  /\ fs2 !! f = Some final
  /\ length (map stored_row (l1 ++ l2)) = (length l1 + length l2)%nat
  /\ (Forall single_line (l1 ++ l2) ->
      line_count final = (1 + (length l1 + length l2))%nat)
  /\ (forall fs0 old, fs0 !! f = Some old ->
        (save_to_csv (Some <$> l2) f true fs0).2 !! f
        = Some (List.filter not_ascii_quote
                  (universal_newlines (old ++ concat (map raw_row l2)))))
  /\ (forall fs0 append, append = false \/ fs0 !! f = None ->
        (save_to_csv (Some <$> l1) f append fs0).2 !! f
        = Some (stored_header ++ concat (map stored_row l1))).
Proof.
  intros Hne1 Hne2 Hl1 Hl2.
  assert (Some <$> l1 ≠ []) as Hs1 by (by destruct l1).
  assert (Some <$> l2 ≠ []) as Hs2 by (by destruct l2).
  pose proof (all_writable_some l1 Hl1) as Hw1.
  pose proof (all_writable_some l2 Hl2) as Hw2.
  cbv zeta.
  rewrite (save_to_csv_fresh _ f false fs Hs1 Hw1) by (by left).
  rewrite records_some. cbn [snd].
  rewrite (save_to_csv_append _ f _ _ Hs2 Hw2 (lookup_insert_eq _ _ _)).
  rewrite records_some, append_to_stored_file, insert_insert_eq. cbn [snd].
  split; [done |]. split; [done |].
  split; [apply lookup_insert_eq |].
  split; [by rewrite length_map, length_app |].
  split.
  { intros Hsl. rewrite stored_file_line_count by done.
    by rewrite length_app. }
  split.
  - intros fs0 old Hold.
    rewrite (save_to_csv_append _ f _ _ Hs2 Hw2 Hold), records_some.
    apply lookup_insert_eq.
  - intros fs0 append Hfresh.
    rewrite (save_to_csv_fresh _ f append fs0 Hs1 Hw1 Hfresh), records_some.
    apply lookup_insert_eq.
Qed.



Lemma save_to_csv_append_composition_witness :
  (save_to_csv [Some (sample_record "B")] "out.csv" true
     (save_to_csv [Some (sample_record "A")] "out.csv" false ∅).2).2 !! "out.csv"
  = Some (stored_header
          ++ concat (map stored_row [sample_record "A"; sample_record "B"])).
Proof.
  destruct (save_to_csv_append_composition
              [sample_record "A"] [sample_record "B"] "out.csv" ∅)
    as (_ & _ & Hfinal & _).
  - discriminate.
  - discriminate.
  - constructor; [apply sample_record_writable | constructor].
  - constructor; [apply sample_record_writable | constructor].
  - exact Hfinal.
Defined.

(** ** Quotes in the written file *)

Lemma save_to_csv_no_ascii_quote (l : list (option product_record)) (f : string)
    (append : bool) (fs fs' : filesystem) :
  l ≠ [] -> save_to_csv l f append fs = (Returned, fs') ->
  exists content, fs' !! f = Some content
                  /\ Forall (fun c => c ≠ DQUOTE /\ c ≠ APOSTROPHE) content.
Proof.
  intros Hne. unfold save_to_csv. destruct l as [|entry l]; [done |].
  destruct (write_rows _ _) as [written ok]. destruct ok; [|discriminate].
  intros [= <-].
  erewrite clean_csv_file_content by apply lookup_insert_eq.
  eexists. split; [apply lookup_insert_eq |].
  eapply Forall_impl; [apply filter_Forall |]. intros c. cbv beta.
  unfold not_ascii_quote. rewrite andb_true_iff, !negb_true_iff, !N.eqb_neq.
  done.
Qed.

(** C6. Evaluation at a failing input: a record whose Name holds the three
    quote characters is written and cleaned; the file has lost both ASCII
    quotes but still holds the Unicode right double quote. *)
Theorem right_double_quote_survives_sink :
  let written := (save_to_csv [Some quoted_record] "out.csv" false ∅).2 in
  written !! "out.csv"
  = Some (stored_header
          ++ u "https://x/p;1;ABC" ++ [RDQUOTE] ++ u "D;;;;;;;;;;id2;" ++ [LF])
  /\ exists content, written !! "out.csv" = Some content
                     /\ RDQUOTE ∈ content
                     /\ (DQUOTE ∉ content) /\ (APOSTROPHE ∉ content).
Proof.
  cbv zeta.
  rewrite (save_to_csv_fresh [Some quoted_record] "out.csv" false ∅);
    [| discriminate
     | constructor; [intros r [= <-]; apply quoted_record_writable | constructor]
     | by left].
  cbn [snd]. rewrite lookup_insert_eq.
  assert (stored_header ++ concat (map stored_row (records [Some quoted_record]))
          = stored_header
            ++ u "https://x/p;1;ABC" ++ [RDQUOTE] ++ u "D;;;;;;;;;;id2;" ++ [LF])
    as -> by (vm_compute; reflexivity).
  split; [done |]. eexists. split; [done |].
  split; [|split].
  - rewrite !elem_of_app. right. right. left. by apply list_elem_of_singleton.
  - vm_compute. intros Hin.
    repeat (apply elem_of_cons in Hin as [Hin | Hin]; [discriminate |]).
    by apply not_elem_of_nil in Hin.
  - vm_compute. intros Hin.
    repeat (apply elem_of_cons in Hin as [Hin | Hin]; [discriminate |]).
    by apply not_elem_of_nil in Hin.
Qed.

(** ** The driver *)

Section DriverClaims.
Context `{Externals}.

Lemma ensure_url_dom (url : pystr) (r : product_record) :
  dom r = list_to_set FIELDNAMES -> dom (ensure_url url r) = list_to_set FIELDNAMES.
Proof.
  intros Hdom. unfold ensure_url. destruct (falsy (r !! "URL")); [|done].
  rewrite dom_insert_L, Hdom.
  apply subseteq_union_1_L, singleton_subseteq_l, elem_of_list_to_set.
  apply list_elem_of_here.
Qed.

Lemma parse_url_dom (url : pystr) (w w' : world) (r : product_record) :
  parse_url url w = (Ret (Some r), w') -> dom r = list_to_set FIELDNAMES.
Proof.
  unfold parse_url. destruct (download_html url w) as [[html_content|] w1];
    [|discriminate].
  destruct (falsy html_content); [discriminate |].
  destruct (extract_product_data _ _ _) as [[[r0|]|] w2] eqn:He; try discriminate.
  intros [= <- <-]. apply ensure_url_dom.
  by eapply extract_product_data_some.
Qed.

Lemma process_link_well_keyed (url : pystr) (w w' : world) (r : product_record) :
  process_link url w = (Ret (Some r), w') -> well_keyed r.
Proof.
  unfold process_link.
  destruct (parse_url url w) as [[[r0|]|] w1] eqn:Hp; try discriminate.
  intros [= <- <-]. apply well_keyed_of_dom, ensure_url_dom.
  by eapply parse_url_dom.
Qed.

Lemma process_links_cons_ret (url : pystr) (rest : list pystr) (w w1 : world)
    (entry : option product_record) :
  process_link url w = (Ret entry, w1) ->
  process_links (url :: rest) w
  = (entry :: (process_links rest w1).1.1, (process_links rest w1).1.2,
     (process_links rest w1).2).
Proof.
  intros Hp. cbn [process_links]. rewrite Hp.
  by destruct (process_links rest w1) as [[all_products o] w2].
Qed.

Lemma process_links_cons_exn (url : pystr) (rest : list pystr) (w w1 : world) :
  process_link url w = (Exn, w1) ->
  process_links (url :: rest) w = ([], Raised, w1).
Proof. intros Hp. cbn [process_links]. by rewrite Hp. Qed.

Lemma process_links_cons_returned (url : pystr) (rest : list pystr) (w w' : world)
    (all_products : list (option product_record)) :
  process_links (url :: rest) w = (all_products, Returned, w') ->
  exists entry w1 others,
    process_link url w = (Ret entry, w1)
    /\ process_links rest w1 = (others, Returned, w')
    /\ all_products = entry :: others.
Proof.
  destruct (process_link url w) as [[entry|] w1] eqn:Hp.
  - rewrite (process_links_cons_ret _ _ _ _ _ Hp).
    destruct (process_links rest w1) as [[others o] w2] eqn:Hrest. cbn [fst snd].
    intros [= <- -> <-]. by exists entry, w1, others.
  - by rewrite (process_links_cons_exn _ _ _ _ Hp).
Qed.

Lemma process_links_well_keyed (links : list pystr) (w : world) :
  Forall (fun entry => forall r, entry = Some r -> well_keyed r)
         (process_links links w).1.1.
Proof.
  revert w. induction links as [|url rest IH]; intros w; [constructor |].
  destruct (process_link url w) as [[entry|] w1] eqn:Hp.
  - rewrite (process_links_cons_ret _ _ _ _ _ Hp). cbn [fst].
    constructor; [|apply IH].
    intros r ->. by eapply process_link_well_keyed.
  - rewrite (process_links_cons_exn _ _ _ _ Hp). constructor.
Qed.

Lemma all_writable_of (l : list (option product_record)) :
  Forall (fun entry => forall r, entry = Some r -> well_keyed r) l ->
  Forall encodable_record (records l) ->
  all_writable l.
Proof.
  unfold all_writable, records.
  induction 1 as [|entry l Hentry Hl IH]; intros Henc; [constructor |].
  destruct entry as [r|]; cbn in Henc.
  - apply Forall_cons in Henc as [Hr Henc]. constructor; [|by apply IH].
    intros r' [= <-]. split; [by apply Hentry | done].
  - constructor; [done | by apply IH].
Qed.

Lemma process_links_length (links : list pystr) (w w' : world)
    (all_products : list (option product_record)) :
  process_links links w = (all_products, Returned, w') ->
  length all_products = length links.
Proof.
  revert w all_products. induction links as [|url rest IH]; intros w all_products.
  { by intros [= <- <-]. }
  intros (entry & w1 & others & _ & Hrest & ->)%process_links_cons_returned.
  cbn [length]. f_equal. by eapply IH.
Qed.

(** The entry of a link is what [process_link] returns for it in the world
    that the links before it have left. *)
Lemma process_links_lookup (links : list pystr) (w w' : world)
    (all_products : list (option product_record)) (i : nat) (url : pystr) :
  process_links links w = (all_products, Returned, w') ->
  links !! i = Some url ->
  exists entry wi wi',
    process_links (take i links) w = (take i all_products, Returned, wi)
    /\ process_link url wi = (Ret entry, wi')
    /\ all_products !! i = Some entry.
Proof.
  revert w all_products i.
  induction links as [|url0 rest IH]; intros w all_products i Hall Hi; [done |].
  apply process_links_cons_returned in Hall
    as (entry & w1 & others & Hp & Hrest & ->).
  destruct i as [|i].
  - injection Hi as ->. by exists entry, w, w1.
  - destruct (IH w1 others i Hrest Hi) as (e & wi & wi' & Htake & Hpi & Hlook).
    exists e, wi, wi'. split; [|done].
    cbn [take]. rewrite (process_links_cons_ret _ _ _ _ _ Hp), Htake. done.
Qed.

Lemma records_failures_length (l : list (option product_record)) :
  (length (records l) + length (List.filter is_failure l) = length l)%nat.
Proof.
  unfold records. induction l as [|[r|] l IH]; cbn; [done | |]; lia.
Qed.

(** What a download gives, read off [requests_get]. *)
Lemma download_html_eq (url : pystr) (w : world) :
  (download_html url w).1
  = match (requests_get url w).1 with
    | Text text => Ret (Some text)
    | RequestException => Ret None
    | OtherException => Exn
    end.
Proof. unfold download_html. by destruct (requests_get url w) as [[text| |] w1]. Qed.

(** No record comes from a link exactly when its download fails with a
    [RequestException] or gives an empty page, or when the page, which the
    HTML parser accepts, holds no data block. *)
Lemma process_link_failure (url : pystr) (w : world) :
  (process_link url w).1 = Ret None
  <-> match (requests_get url w).1 with
      | Text text =>
          text = []
          \/ (is_Some (BeautifulSoup text) /\ re_search KIWI_RE text = None)
      | RequestException => True
      | OtherException => False
      end.
Proof.
  unfold process_link, parse_url, download_html.
  destruct (requests_get url w) as [[text| |] w1]; cbn [fst];
    [| by cbn | by cbn].
  destruct text as [|c text]; [by cbn; split; [left |] |].
  cbn [falsy truthy negb default id].
  destruct (BeautifulSoup (c :: text)) as [sp|] eqn:Hsp.
  - pose proof (extract_product_data_outcome
                  (c :: text) sp (Some url) w1 Hsp) as Hx.
    destruct (re_search KIWI_RE (c :: text)).
    + destruct Hx as (r & w' & -> & _). cbn.
      split; [done | by intros [|[_ ?]]].
    + rewrite Hx. cbn. split; [by right | done].
  - rewrite extract_product_data_rejected by done. cbn.
    split; [done | intros [|[[sp Hsome] _]]; done].
Qed.

(** An exception leaves the processing of a link exactly when the download
    raises an exception that is not a [RequestException], or when the HTML
    parser rejects the page. *)
Lemma process_link_raises (url : pystr) (w : world) :
  (process_link url w).1 = Exn
  <-> match (requests_get url w).1 with
      | Text text => text ≠ [] /\ BeautifulSoup text = None
      | RequestException => False
      | OtherException => True
      end.
Proof.
  unfold process_link, parse_url, download_html.
  destruct (requests_get url w) as [[text| |] w1]; cbn [fst];
    [| by cbn | by cbn].
  destruct text as [|c text]; [by cbn; split; [| intros [? _]] |].
  cbn [falsy truthy negb default id].
  destruct (BeautifulSoup (c :: text)) as [sp|] eqn:Hsp.
  - pose proof (extract_product_data_outcome
                  (c :: text) sp (Some url) w1 Hsp) as Hx.
    destruct (re_search KIWI_RE (c :: text)).
    + destruct Hx as (r & w' & -> & _). cbn. split; [done | by intros [_ ?]].
    + rewrite Hx. cbn. split; [done | by intros [_ ?]].
  - rewrite extract_product_data_rejected by done. cbn. by split.
Qed.

End DriverClaims.

Section DriverTheorem.
Context `{Externals}.

Lemma main_no_links (fs : filesystem) (w : world) :
  read_links_from_file "links.txt" fs = [] -> main fs w = (Returned, fs, w).
Proof. intros Hlinks. unfold main. by rewrite Hlinks. Qed.

Lemma main_raised (fs : filesystem) (w w' : world) (links : list pystr)
    (collected : list (option product_record)) :
  read_links_from_file "links.txt" fs = links ->
  process_links links w = (collected, Raised, w') ->
  main fs w = (Raised, fs, w').
Proof.
  intros Hlinks Hloop. unfold main. rewrite Hlinks.
  destruct links as [|url rest]; [done |]. by rewrite Hloop.
Qed.

Lemma main_saves (fs : filesystem) (w w' : world) (url : pystr) (rest : list pystr)
    (all_products : list (option product_record)) :
  read_links_from_file "links.txt" fs = url :: rest ->
  process_links (url :: rest) w = (all_products, Returned, w') ->
  main fs w
  = ((save_to_csv all_products OUTPUT_FILE false fs).1,
     (save_to_csv all_products OUTPUT_FILE false fs).2, w').
Proof.
  intros Hlinks Hloop. unfold main. rewrite Hlinks, Hloop.
  pose proof (process_links_length _ _ _ _ Hloop) as Hlen.
  destruct all_products as [|entry all_products]; [done |].
  by destruct (save_to_csv _ _ _ _).
Qed.

Lemma main_nonempty (fs : filesystem) (w w' : world) (url : pystr)
    (rest : list pystr) (all_products : list (option product_record)) :
  read_links_from_file "links.txt" fs = url :: rest ->
  process_links (url :: rest) w = (all_products, Returned, w') ->
  Forall encodable_record (records all_products) ->
  main fs w
  = (Returned,
     <[OUTPUT_FILE := stored_header
         ++ concat (map stored_row (records all_products))]> fs,
     w').
Proof.
  intros Hlinks Hloop Henc. rewrite (main_saves _ _ _ _ _ _ Hlinks Hloop).
  pose proof (process_links_well_keyed (url :: rest) w) as Hw.
  pose proof (process_links_length _ _ _ _ Hloop) as Hlen.
  rewrite Hloop in Hw. cbn [fst] in Hw.
  rewrite save_to_csv_fresh; [done | | by apply all_writable_of | by left].
  by destruct all_products.
Qed.

(** C7, amended. When no exception leaves the loop over the links (every
    download gives a page or fails with a [RequestException], and the HTML
    parser accepts every page) and UTF-8 can encode the records: a link
    whose download or extraction fails leaves no row in the output file;
    the file holds the header and one row for each link that succeeded, in
    the order of the links, so the number of data rows is the number of
    links minus the number of failures; every link of the list is
    processed, also those after a failure. *)
Theorem main_skips_failed_links
    (links : list pystr) (fs : filesystem) (w w' : world)
    (all_products : list (option product_record)) :
  read_links_from_file "links.txt" fs = links ->
  process_links links w = (all_products, Returned, w') ->
  Forall encodable_record (records all_products) ->
  let successes := records all_products in
  let failures := length (List.filter is_failure all_products) in
  let output := stored_header ++ concat (map stored_row successes) in
  match links with
  | [] => main fs w = (Returned, fs, w)
  | _ :: _ => main fs w = (Returned, <[OUTPUT_FILE := output]> fs, w')
  end
  /\ length all_products = length links
  /\ length (map stored_row successes) = (length links - failures)%nat
  /\ (forall i url, links !! i = Some url ->
        exists entry wi wi',
          process_links (take i links) w = (take i all_products, Returned, wi)
          /\ process_link url wi = (Ret entry, wi')
          /\ all_products !! i = Some entry)
  /\ (forall url w0,
        (process_link url w0).1 = Ret None
        <-> match (requests_get url w0).1 with
            | Text text =>
                text = []
                \/ (is_Some (BeautifulSoup text) /\ re_search KIWI_RE text = None)
            | RequestException => True
            | OtherException => False
            end)
  /\ (forall url w0,
        (process_link url w0).1 = Exn
        <-> match (requests_get url w0).1 with
            | Text text => text ≠ [] /\ BeautifulSoup text = None
            | RequestException => False
            | OtherException => True
            end)
  /\ (Forall single_line successes ->
      line_count output = S (length links - failures)).
Proof.
  intros Hlinks Hloop Henc. cbv zeta.
  pose proof (records_failures_length all_products) as Hcount.
  rewrite (process_links_length _ _ _ _ Hloop) in Hcount.
  split.
  { destruct links as [|url rest].
    - by apply main_no_links.
    - by eapply main_nonempty. }
  split; [by eapply process_links_length |].
  split; [rewrite length_map; lia |].
  split; [intros i url Hi; by eapply process_links_lookup |].
  split; [apply process_link_failure |].
  split; [apply process_link_raises |].
  intros Hsl. rewrite stored_file_line_count by done. lia.
Qed.

End DriverTheorem.

(** C7, as it stands, fails: the loop of [main] catches nothing.  Here the
    download of the second of three links raises an exception that is not
    a [RequestException]: [main] is left by the exception, the third link
    is never processed, and no output file is written, although the first
    link gave a record and the third would give one.  The same happens at
    a link whose page the HTML parser rejects. *)
Lemma main_stops_at_unexpected_exception :
  let fs : filesystem :=
    {[ "links.txt" :=
         u "https://ok/1" ++ [LF] ++ u "https://crash/2" ++ [LF] ++ u "https://ok/3" ]} in
  let fs' : filesystem :=
    {[ "links.txt" :=
         u "https://ok/1" ++ [LF] ++ u "https://marked/2" ++ [LF] ++ u "https://ok/3" ]} in
  read_links_from_file "links.txt" fs
  = [u "https://ok/1"; u "https://crash/2"; u "https://ok/3"]
  /\ @main toy_externals fs 0%nat = (Raised, fs, 1%nat)
  /\ (@main toy_externals fs 0%nat).1.2 !! OUTPUT_FILE = None
  /\ (exists r, @process_link toy_externals (u "https://ok/1") 0%nat
                = (Ret (Some r), 1%nat))
  /\ (exists r, @process_link toy_externals (u "https://ok/3") 1%nat
                = (Ret (Some r), 2%nat))
  /\ @main toy_externals fs' 0%nat = (Raised, fs', 1%nat).
Proof.
  cbv zeta.
  assert (forall page : pystr,
             read_links_from_file "links.txt"
               ({[ "links.txt" :=
                     u "https://ok/1" ++ [LF] ++ page ++ [LF] ++ u "https://ok/3" ]}
                : filesystem)
             = List.filter
                 (fun line => truthy line && negb (startswith line (u "#")))
                 (map strip (readlines
                    (u "https://ok/1" ++ [LF] ++ page ++ [LF] ++ u "https://ok/3"))))
    as Hread.
  { intros page. unfold read_links_from_file. by rewrite lookup_singleton_eq. }
  assert (exists r, @process_link toy_externals (u "https://ok/1") 0%nat
                    = (Ret (Some r), 1%nat)) as Hfirst.
  { eexists. vm_compute. reflexivity. }
  split; [rewrite Hread; by vm_compute |].
  split; [|split; [|split; [done |split]]].
  - destruct Hfirst as [r Hr].
    eapply (@main_raised toy_externals); [rewrite Hread; by vm_compute |].
    erewrite process_links_cons_ret by exact Hr.
    erewrite process_links_cons_exn by (vm_compute; reflexivity). reflexivity.
  - destruct Hfirst as [r Hr].
    erewrite (@main_raised toy_externals); [| rewrite Hread; by vm_compute |].
    + cbn [fst snd]. apply lookup_singleton_ne. done.
    + erewrite process_links_cons_ret by exact Hr.
      erewrite process_links_cons_exn by (vm_compute; reflexivity). reflexivity.
  - eexists. vm_compute. reflexivity.
  - destruct Hfirst as [r Hr].
    eapply (@main_raised toy_externals); [rewrite Hread; by vm_compute |].
    erewrite process_links_cons_ret by exact Hr.
    erewrite process_links_cons_exn by (vm_compute; reflexivity). reflexivity.
Qed.

Lemma toy_links_processed :
  exists r1 r4,
    @process_links toy_externals toy_links 0%nat
    = ([Some r1; None; None; Some r4], Returned, 2%nat)
    /\ r1 = record14 (u "https://ok/1") [] (u "Dress") [] [] [] [] [] [] [] [] []
              (u "uuid-0") []
    /\ r4 = record14 (u "https://ok/4") [] (u "Dress") [] [] [] [] [] [] [] [] []
              (u "uuid-1") [].
Proof. eexists _, _. split; [|split]; [| reflexivity | reflexivity]. by vm_compute. Qed.

Lemma main_skips_failed_links_witness :
  (@main toy_externals {[ "links.txt" := toy_links_file ]} 0%nat).1.2 !! OUTPUT_FILE
  = Some (stored_header
          ++ u "https://ok/1;;Dress;;;;;;;;;;uuid-0;" ++ [LF]
          ++ u "https://ok/4;;Dress;;;;;;;;;;uuid-1;" ++ [LF]).
Proof.
  destruct toy_links_processed as (r1 & r4 & Hloop & -> & ->).
  assert (read_links_from_file "links.txt"
            ({[ "links.txt" := toy_links_file ]} : filesystem) = toy_links)
    as Hlinks by (vm_compute; reflexivity).
  destruct (@main_skips_failed_links toy_externals toy_links
              {[ "links.txt" := toy_links_file ]} 0%nat 2%nat _ Hlinks Hloop)
    as (Hmain & _).
  - cbn. repeat constructor; apply record14_encodable;
      repeat constructor; apply u_encodable.
  - cbv iota beta delta [toy_links] in Hmain. rewrite Hmain. cbn [fst snd].
    rewrite lookup_insert_eq. vm_compute. reflexivity.
Defined.

(** * Further properties of the code *)

(** ** Quote removal on values and records *)

Lemma remove_quotes_idempotent (value : pystr) :
  remove_quotes (remove_quotes value) = remove_quotes value.
Proof.
  rewrite !remove_quotes_filter, filter_filter_and.
  apply List.filter_ext. intros c. apply andb_diag.
Qed.

(** X1. [remove_quotes] deletes the ASCII double quote and the ASCII
    apostrophe and nothing else: every other character, the right double
    quote included, stays in place; cleaning twice is cleaning once. *)
Theorem remove_quotes_deletes_ascii_quotes_only (value : pystr) :
  remove_quotes value = List.filter not_ascii_quote value
  /\ Forall (fun c => c ≠ DQUOTE /\ c ≠ APOSTROPHE) (remove_quotes value)
  /\ List.filter (fun c => c =? RDQUOTE) (remove_quotes value)
     = List.filter (fun c => c =? RDQUOTE) value
  /\ remove_quotes (remove_quotes value) = remove_quotes value
  /\ (length (remove_quotes value) <= length value)%nat.
Proof.
  rewrite !remove_quotes_filter. split; [done |]. split; [|split; [|split]].
  - eapply Forall_impl; [apply filter_Forall |]. intros c. cbv beta.
    unfold not_ascii_quote. rewrite andb_true_iff, !negb_true_iff, !N.eqb_neq.
    done.
  - rewrite filter_filter_and. apply List.filter_ext. intros c.
    destruct (c =? RDQUOTE) eqn:Hr; [|apply andb_false_r].
    apply N.eqb_eq in Hr. by subst c.
  - rewrite <- !remove_quotes_filter. apply remove_quotes_idempotent.
  - apply List.filter_length_le.
Qed.

(** X2. [clean_product_data] keeps the keys of the record, cleans every
    value with [remove_quotes], and is idempotent. *)
Theorem clean_product_data_keeps_keys (product_data : product_record) (key : string) :
  dom (clean_product_data product_data) = dom product_data
  /\ clean_product_data product_data !! key = remove_quotes <$> product_data !! key
  /\ clean_product_data (clean_product_data product_data)
     = clean_product_data product_data.
Proof.
  unfold clean_product_data. split; [apply dom_fmap_L |].
  split; [apply lookup_fmap |].
  rewrite <- map_fmap_compose. apply map_fmap_ext. intros k v _. cbn.
  apply remove_quotes_idempotent.
Qed.

(** ** Image URLs *)

Lemma absolute_url_not_relative (img : pystr) :
  startswith (absolute_url img) (u "/") = false.
Proof.
  unfold absolute_url.
  destruct (startswith img (u "//")) eqn:H2; [reflexivity |].
  destruct (startswith img (u "/")) eqn:H1; [reflexivity | exact H1].
Qed.

Lemma absolute_url_truthy (img : pystr) :
  truthy (absolute_url img) = truthy img.
Proof.
  unfold absolute_url.
  destruct (startswith img (u "//")) eqn:H2; [by destruct img |].
  destruct (startswith img (u "/")) eqn:H1; [by destruct img | done].
Qed.

(** X3. URL normalization never leaves a URL that starts with a slash, is
    idempotent, and returns the empty string only for the empty string. *)
Theorem absolute_url_idempotent (img : pystr) :
  startswith (absolute_url img) (u "/") = false
  /\ startswith (absolute_url img) (u "//") = false
  /\ absolute_url (absolute_url img) = absolute_url img
  /\ truthy (absolute_url img) = truthy img.
Proof.
  pose proof (absolute_url_not_relative img) as Hrel.
  split; [done |]. split; [by apply startswith_slash_slash |]. split.
  - unfold absolute_url at 1.
    by rewrite (startswith_slash_slash _ Hrel), Hrel.
  - apply absolute_url_truthy.
Qed.

(** ** Sizes *)

Lemma elem_of_labels (variants : list variant) (x : pystr) :
  x ∈ labels variants
  <-> x ≠ [] /\ exists v, v ∈ variants /\ v !! "public_title" = Some x.
Proof.
  unfold labels. rewrite list_elem_of_omap. split.
  - intros (v & Hv & Hl). unfold label in Hl.
    destruct (v !! "public_title") as [[|c t]|] eqn:Ht; try discriminate.
    injection Hl as <-. split; [done |]. by exists v.
  - intros (Hx & v & Hv & Ht). exists v. split; [done |].
    unfold label. rewrite Ht. by destruct x.
Qed.

(** X4. The sizes collected from the variants hold no duplicate and no
    empty entry, and are exactly the non-empty public_title values of the
    variants. *)
Theorem sizes_of_distinct_labels (variants : list variant) (x : pystr) :
  NoDup (sizes_of variants)
  /\ Forall (fun size => size ≠ []) (sizes_of variants)
  /\ (x ∈ sizes_of variants
      <-> x ≠ [] /\ exists v, v ∈ variants /\ v !! "public_title" = Some x).
Proof.
  rewrite sizes_of_dedup. split; [apply NoDup_dedup_first |]. split.
  - apply Forall_forall. intros y Hy.
    apply elem_of_dedup_first, elem_of_labels in Hy. tauto.
  - by rewrite elem_of_dedup_first, elem_of_labels.
Qed.

Lemma sizes_of_distinct_labels_witness :
  u "M" ∈ sizes_of [ {[ "public_title" := u "S" ]}; {[ "public_title" := u "M" ]} ].
Proof.
  apply (sizes_of_distinct_labels
           [ {[ "public_title" := u "S" ]}; {[ "public_title" := u "M" ]} ] (u "M")).
  split; [discriminate |].
  exists {[ "public_title" := u "M" ]}. split; [|reflexivity].
  apply elem_of_cons. right. apply elem_of_cons. by left.
Defined.

(** ** What the extractor finds *)

Lemma re_search_groups (r : regex) (s : pystr) (m : list pystr) :
  groups_nonempty r Outside = true -> re_search r s = Some m ->
  length m = group_count r /\ Forall (fun g => g ≠ []) m.
Proof.
  intros Hr. unfold re_search.
  destruct (search_from r s) as [[gs rest]|] eqn:Hs; [|discriminate].
  intros [= <-]. destruct (search_from_sound _ _ _ _ Hs) as (pre & t & st' & _ & Hrun & ->).
  split.
  - by rewrite (run_group_count _ _ _ _ Hrun).
  - by eapply run_groups_nonempty.
Qed.

Lemma groups_nonempty_lit (s : string) (r : regex) :
  groups_nonempty (lit s ++ r) Outside = groups_nonempty r Outside.
Proof. unfold lit. by induction (u s) as [|c l IH]. Qed.

Lemma group_count_lit (s : string) (r : regex) :
  group_count (lit s ++ r) = group_count r.
Proof. unfold lit. by induction (u s) as [|c l IH]. Qed.

Lemma first_group_nonempty (r : regex) (s : pystr) (m : list pystr) :
  groups_nonempty r Outside = true -> (0 < group_count r)%nat ->
  re_search r s = Some m -> group m 1 ≠ [].
Proof.
  intros Hr Hn Hm. destruct (re_search_groups _ _ _ Hr Hm) as [Hlen Hne].
  destruct m as [|g m]; [cbn in Hlen; lia |]. by inversion Hne.
Qed.

Lemma field_match_nonempty (key : string) (html_content v : pystr) :
  field_match key html_content = Some v -> v ≠ [].
Proof.
  unfold field_match.
  destruct (re_search (field_re key) html_content) as [m|] eqn:Hm; [|discriminate].
  intros [= <-]. eapply first_group_nonempty; [| |exact Hm]; unfold field_re.
  - by rewrite groups_nonempty_lit.
  - rewrite group_count_lit. cbn. lia.
Qed.

Lemma saved_url_nonempty (html_content : pystr) (m : list pystr) :
  re_search SAVED_URL_RE html_content = Some m -> group m 1 ≠ [].
Proof.
  intros Hm. eapply first_group_nonempty; [| |exact Hm]; unfold SAVED_URL_RE.
  - rewrite groups_nonempty_lit. cbn [app groups_nonempty].
    by rewrite groups_nonempty_lit.
  - rewrite group_count_lit. cbn [app group_count]. rewrite group_count_lit.
    cbn. lia.
Qed.

Lemma falsy_some (v : pystr) : falsy (Some v) = negb (truthy v).
Proof. by destruct v. Qed.

Section ExtractorProperties.
Context `{Externals}.

Lemma extract_product_data_regex_eq (html_content : pystr) (sp : soup)
    (product_url : option pystr) (w : world) :
  BeautifulSoup html_content = Some sp ->
  extract_product_data_regex html_content product_url w
  = (Ret (process_kiwi_data (found_fields html_content) html_content sp
            product_url w).1,
     (process_kiwi_data (found_fields html_content) html_content sp
        product_url w).2).
Proof.
  intros Hsp. unfold extract_product_data_regex. rewrite Hsp. cbv zeta.
  fold (found_fields html_content).
  by destruct (process_kiwi_data _ _ _ _ _).
Qed.

(** The URL looked up at parser.py 55-62 is the one that
    [process_kiwi_data] would find itself. *)
Lemma extract_product_data_eq (html_content : pystr) (sp : soup)
    (product_url : option pystr) (w : world) (k : list pystr) :
  BeautifulSoup html_content = Some sp ->
  re_search KIWI_RE html_content = Some k ->
  extract_product_data html_content product_url w
  = (Ret (Some (process_kiwi_data (found_fields html_content) html_content sp
                  product_url w).1),
     (process_kiwi_data (found_fields html_content) html_content sp
        product_url w).2).
Proof.
  intros Hsp Hk. unfold extract_product_data. rewrite Hsp, Hk.
  rewrite (extract_product_data_regex_eq _ sp) by done.
  rewrite !process_kiwi_data_eq. cbn [fst snd].
  do 4 f_equal.
  destruct (falsy product_url) eqn:Hf; [|by rewrite Hf].
  unfold page_url.
  destruct (re_search SAVED_URL_RE html_content) as [m|] eqn:Hm;
    cbn [fmap option_fmap option_map].
  - pose proof (saved_url_nonempty _ _ Hm) as Hne.
    rewrite falsy_some. destruct (group m 1) as [|c g] eqn:Hg; [done |].
    cbn [truthy negb]. by rewrite falsy_some.
  - cbn [falsy].
    destruct (soup_find sp "link" "rel" "canonical") as [canonical|]; [|done].
    rewrite falsy_some. by destruct (tag_get canonical "href") as [[|c g]|].
Qed.

(** X5. [extract_product_data] parses the page first: a page that the HTML
    parser rejects raises, whether it holds a data block or not.  On a page
    that the parser accepts, the URL that [extract_product_data] looks up
    before handing over to [extract_product_data_regex] changes nothing:
    the result is that of the regex extraction called with the caller's
    URL.  The URL column is the caller's URL when it is not empty, else the
    URL of the saved-from marker, else the href of the canonical link, else
    empty. *)
Theorem extract_product_data_url_lookup_redundant
    (html_content : pystr) (product_url : option pystr) (w : world) :
  match BeautifulSoup html_content with
  | None =>
      extract_product_data html_content product_url w = (Exn, w)
      /\ extract_product_data_regex html_content product_url w = (Exn, w)
  | Some sp =>
      exists r w',
        extract_product_data_regex html_content product_url w = (Ret r, w')
        /\ extract_product_data html_content product_url w
           = match re_search KIWI_RE html_content with
             | None => (Ret None, w)
             | Some _ => (Ret (Some r), w')
             end
        /\ r !! "URL"
           = Some match product_url with
                  | Some (c :: url) => c :: url
                  | _ =>
                      match re_search SAVED_URL_RE html_content with
                      | Some url_match => group url_match 1
                      | None =>
                          match soup_find sp "link" "rel" "canonical" with
                          | Some canonical => default [] (tag_get canonical "href")
                          | None => []
                          end
                      end
                  end
  end.
Proof.
  destruct (BeautifulSoup html_content) as [sp|] eqn:Hsp.
  - eexists _, _. split; [by apply extract_product_data_regex_eq |]. split.
    + destruct (re_search KIWI_RE html_content) as [k|] eqn:Hk.
      * by eapply extract_product_data_eq.
      * unfold extract_product_data. by rewrite Hsp, Hk.
    + rewrite process_kiwi_data_eq. cbn [fst].
      by destruct product_url as [[|c url]|].
  - split; [by apply extract_product_data_rejected
           | by apply extract_product_data_regex_rejected].
Qed.

Lemma extract_product_data_url (html_content url : pystr) (w w' : world)
    (r : product_record) :
  url ≠ [] ->
  extract_product_data html_content (Some url) w = (Ret (Some r), w') ->
  r !! "URL" = Some url.
Proof.
  intros Hurl.
  destruct (BeautifulSoup html_content) as [sp|] eqn:Hsp;
    [|by rewrite extract_product_data_rejected].
  destruct (re_search KIWI_RE html_content) as [k|] eqn:Hk.
  - rewrite (extract_product_data_eq _ sp _ _ k) by done.
    intros [= <- _]. rewrite process_kiwi_data_eq. cbn [fst]. by destruct url.
  - unfold extract_product_data. by rewrite Hsp, Hk.
Qed.

Lemma parse_url_url (url : pystr) (w w' : world) (r : product_record) :
  url ≠ [] -> parse_url url w = (Ret (Some r), w') -> r !! "URL" = Some url.
Proof.
  intros Hurl Hp. unfold parse_url in Hp.
  destruct (download_html url w) as [[html_content|] w1]; [|discriminate].
  destruct (falsy html_content); [discriminate |].
  destruct (extract_product_data _ _ _) as [[[r1|]|] w2] eqn:He; try discriminate.
  injection Hp as <- <-.
  pose proof (extract_product_data_url _ _ _ _ _ Hurl He) as Hr1.
  unfold ensure_url. rewrite Hr1, falsy_some. by destruct url.
Qed.

Lemma process_link_url (url : pystr) (w w' : world) (r : product_record) :
  url ≠ [] -> process_link url w = (Ret (Some r), w') -> r !! "URL" = Some url.
Proof.
  intros Hurl Hp. unfold process_link in Hp.
  destruct (parse_url url w) as [[[r0|]|] w0] eqn:Hp0; try discriminate.
  injection Hp as <- <-. pose proof (parse_url_url _ _ _ _ Hurl Hp0) as Hr0.
  unfold ensure_url. rewrite Hr0, falsy_some. by destruct url.
Qed.

Lemma process_link_dom (url : pystr) (w w' : world) (r : product_record) :
  process_link url w = (Ret (Some r), w') -> dom r = list_to_set FIELDNAMES.
Proof.
  intros Hp. unfold process_link in Hp.
  destruct (parse_url url w) as [[[r0|]|] w0] eqn:Hp0; try discriminate.
  injection Hp as <- <-. apply ensure_url_dom. by eapply parse_url_dom.
Qed.

(** X6. A record returned by [parse_url], and the entry the loop of [main]
    keeps for a link, carry that link in the URL column and have the 14
    columns. *)
Theorem parse_url_record_carries_link
    (url : pystr) (w w' : world) (r : product_record) :
  url ≠ [] ->
  parse_url url w = (Ret (Some r), w') \/ process_link url w = (Ret (Some r), w') ->
  r !! "URL" = Some url /\ dom r = list_to_set FIELDNAMES.
Proof.
  intros Hurl [Hp | Hp].
  - split; [by eapply parse_url_url | by eapply parse_url_dom].
  - split; [by eapply process_link_url | by eapply process_link_dom].
Qed.

End ExtractorProperties.

Lemma parse_url_record_carries_link_witness :
  exists r w',
    @parse_url toy_externals (u "https://ok/1") 0%nat = (Ret (Some r), w')
    /\ r !! "URL" = Some (u "https://ok/1").
Proof.
  destruct (@parse_url toy_externals (u "https://ok/1") 0%nat)
    as [[[r|]|] w'] eqn:Hp; [|vm_compute in Hp; discriminate ..].
  exists r, w'. split; [reflexivity |].
  apply (@parse_url_record_carries_link toy_externals (u "https://ok/1") 0%nat w' r).
  - discriminate.
  - left. exact Hp.
Defined.

(** ** Empty columns *)

Lemma replace_slash_truthy (s : pystr) :
  truthy (replace s ESCAPED_SLASH (u "/")) = truthy s.
Proof.
  destruct s as [|c s]; [done |]. unfold replace, ESCAPED_SLASH.
  cbn [replace_from]. by destruct (startswith (c :: s) [92; 47]).
Qed.

Lemma truthy_true (s : pystr) : truthy s = true <-> s ≠ [].
Proof. by destruct s. Qed.

Lemma join_truthy (sep x : pystr) (rest : list pystr) :
  x ≠ [] -> join sep (x :: rest) ≠ [].
Proof. intros Hx. cbn [join]. destruct rest; by destruct x. Qed.

Section EmptyColumns.
Context `{Externals}.

Lemma images_found_nonempty (html_content img : pystr) :
  img ∈ images_found html_content -> img ≠ [].
Proof.
  unfold images_found, extract_images.
  destruct (re_search (array_re "images") html_content) as [m|];
    [|by intros Hin%not_elem_of_nil].
  cbn [default]. unfold default. cbn [id].
  intros (x & -> & Hx)%list_elem_of_fmap. apply list_elem_of_fmap in Hx as (gs & -> & Hgs).
  apply re_findall_groups in Hgs as [Hlen Hne]; [|reflexivity].
  destruct gs as [|g gs]; [discriminate |]. inversion Hne; subst.
  apply truthy_true. rewrite replace_slash_truthy. by apply truthy_true.
Qed.

Lemma field_column_empty (key : string) (html_content : pystr) :
  default [] (field_match key html_content) = []
  <-> re_search (field_re key) html_content = None.
Proof.
  pose proof (field_match_nonempty key html_content) as Hne.
  unfold field_match in *.
  destruct (re_search (field_re key) html_content) as [m|]; cbn in *; [|done].
  split; [|discriminate]. intros Hm. by destruct (Hne _ eq_refl).
Qed.

Lemma sizes_str_empty (html_content : pystr) :
  sizes_str_of (extract_variants html_content) = []
  <-> extract_variants html_content = [].
Proof.
  unfold sizes_str_of. cbv zeta. rewrite join_nil_or, sizes_of_dedup.
  pose proof (extract_variants_fields html_content) as Hall.
  rewrite extract_variants_labels.
  destruct (extract_variants html_content) as [|v vs]; [done |].
  split; [|discriminate]. intros Hj. exfalso.
  destruct (Hall v) as (title & sku & Htitle & _ & ->); [by left |].
  cbn [map dedup_first] in Hj. revert Hj. apply join_truthy.
  unfold get. by rewrite lookup_insert_eq.
Qed.

Lemma article_empty (html_content : pystr) :
  article_of (extract_variants html_content) = []
  <-> extract_variants html_content = [].
Proof.
  pose proof (extract_variants_fields html_content) as Hall.
  destruct (extract_variants html_content) as [|v vs]; [done |].
  split; [|discriminate]. intros Ha. exfalso.
  destruct (Hall v) as (title & sku & _ & Hsku & ->); [by left |].
  cbn [article_of] in Ha. unfold get in Ha.
  rewrite lookup_insert_ne, lookup_singleton_eq in Ha by done. by cbn in Ha.
Qed.

Lemma image2_empty (html_content : pystr) :
  image2_of (images_found html_content) = [] <-> images_found html_content = [].
Proof.
  pose proof (images_found_nonempty html_content) as Hall.
  destruct (images_found html_content) as [|img imgs]; [done |].
  split; [|discriminate]. intros Hi. exfalso.
  cbn in Hi. apply (Hall img); [by left |].
  apply not_truthy_nil. rewrite <- absolute_url_truthy. by rewrite Hi.
Qed.

Lemma ext_images_empty (html_content : pystr) :
  ext_images_of (images_found html_content) = []
  <-> (length (images_found html_content) <= 1)%nat.
Proof.
  pose proof (images_found_nonempty html_content) as Hall.
  destruct (images_found html_content) as [|a [|b [|c imgs]]]; cbn [length].
  - split; [lia | done].
  - split; [lia | done].
  - split; [|lia]. intros Hi. exfalso. cbn in Hi.
    apply (Hall b); [apply elem_of_cons; right; by left |].
    apply not_truthy_nil. rewrite <- absolute_url_truthy.
    change (item [a; b] 1) with b in Hi. by rewrite Hi.
  - split; [|lia]. intros Hi. exfalso.
    unfold ext_images_of in Hi. cbn [length Nat.leb] in Hi.
    apply app_eq_nil in Hi as [_ Hi]. discriminate.
Qed.

(** X7. In the record extracted from a page an empty column means that
    nothing was found: ID, Name, Brand and Category are empty exactly when
    their pattern has no match, Article and Sizes exactly when no variant
    was found, Image2 exactly when no image was found and Ext Images
    exactly when at most one was. *)
Theorem empty_column_means_not_found
    (html_content : pystr) (sp : soup) (product_url : option pystr) (w : world) :
  BeautifulSoup html_content = Some sp ->
  exists r w',
  extract_product_data_regex html_content product_url w = (Ret r, w') /\
  (r !! "ID" = Some [] <-> re_search (field_re "product") html_content = None)
  /\ (r !! "Name" = Some [] <-> re_search (field_re "title") html_content = None)
  /\ (r !! "Brand" = Some [] <-> re_search (field_re "vendor") html_content = None)
  /\ (r !! "Category" = Some [] <-> re_search (field_re "type") html_content = None)
  /\ (r !! "Article" = Some [] <-> extract_variants html_content = [])
  /\ (r !! "Sizes" = Some [] <-> extract_variants html_content = [])
  /\ (r !! "Image2" = Some [] <-> images_found html_content = [])
  /\ (r !! "Ext Images" = Some [] <-> (length (images_found html_content) <= 1)%nat).
Proof.
  intros Hsp. eexists _, _.
  split; [by apply extract_product_data_regex_eq |].
  rewrite process_kiwi_data_eq. unfold found_fields.
  cbn [fst kd_product kd_title kd_vendor kd_type kd_images kd_variants].
  assert (forall a b : pystr, Some a = Some b <-> a = b) as Hsome
    by (intros a b; split; [by intros [= ->] | by intros ->]).
  repeat split; try (intros Hr; apply Hsome in Hr; revert Hr);
    try (intros Hr; apply Hsome; revert Hr);
    first [ apply field_column_empty | apply article_empty | apply sizes_str_empty
          | apply image2_empty | apply ext_images_empty ].
Qed.

End EmptyColumns.

Lemma empty_column_means_not_found_witness :
  exists r w',
    @extract_product_data_regex toy_externals toy_page None 0%nat = (Ret r, w')
    /\ r !! "Brand" = Some [] /\ r !! "Name" ≠ Some [].
Proof.
  destruct (@empty_column_means_not_found toy_externals toy_page toy_page None
              0%nat eq_refl)
    as (r & w' & Hr & _ & Hname & Hbrand & _).
  exists r, w'. split; [exact Hr |]. split.
  - apply Hbrand. reflexivity.
  - intros Hn. apply Hname in Hn. vm_compute in Hn. discriminate.
Defined.

(** ** The sink beyond well-formed records *)

Lemma clean_csv_file_frame (name : string) (fs : filesystem) :
  delete name (clean_csv_file name fs) = delete name fs
  /\ dom (clean_csv_file name fs) = dom fs.
Proof.
  destruct (fs !! name) as [content|] eqn:Hf.
  - rewrite (clean_csv_file_content _ _ _ Hf). split.
    + apply delete_insert_eq.
    + rewrite dom_insert_L. apply subseteq_union_1_L, singleton_subseteq_l.
      apply elem_of_dom. by eexists.
  - by rewrite (clean_csv_file_missing _ _ Hf).
Qed.

Lemma save_to_csv_frame (l : list (option product_record)) (f : string)
    (append : bool) (fs : filesystem) :
  delete f (save_to_csv l f append fs).2 = delete f fs.
Proof.
  unfold save_to_csv. destruct l as [|entry l]; [done |].
  destruct (write_rows _ _) as [written ok]. destruct ok; cbn [snd].
  - destruct (clean_csv_file_frame f (<[f := written]> fs)) as [-> _].
    apply delete_insert_eq.
  - apply delete_insert_eq.
Qed.

(** X8. The sink touches one file only: [save_to_csv] and [clean_csv_file]
    leave every other file as it was, whatever the records and the outcome;
    [clean_csv_file] neither creates nor removes a file, and [save_to_csv]
    with an empty list does nothing at all. *)
Theorem sink_touches_only_its_file (l : list (option product_record))
    (f : string) (append : bool) (fs : filesystem) :
  delete f (save_to_csv l f append fs).2 = delete f fs
  /\ delete f (clean_csv_file f fs) = delete f fs
  /\ dom (clean_csv_file f fs) = dom fs
  /\ save_to_csv [] f append fs = (Returned, fs).
Proof.
  split; [apply save_to_csv_frame |]. split; [apply clean_csv_file_frame |].
  split; [apply clean_csv_file_frame | reflexivity].
Qed.

Lemma write_rows_true_entries (l : list (option product_record)) (written : pystr) :
  write_rows l written = write_rows (true_entries l) written.
Proof.
  revert written. unfold true_entries.
  induction l as [|entry l IH]; intros written; [done |].
  cbn [write_rows List.filter]. destruct (is_record entry) eqn:He; [|apply IH].
  cbn [write_rows]. rewrite He. by destruct (writerow _ _).
Qed.

(** X9. Entries that are None or an empty dict write nothing: two
    non-empty lists with the same true entries leave the same file and the
    same outcome; a non-empty list without any true entry leaves, without
    append, a file that holds the header only. *)
Theorem save_to_csv_skips_false_entries (l1 l2 : list (option product_record))
    (f : string) (append : bool) (fs : filesystem) :
  l1 ≠ [] -> l2 ≠ [] -> true_entries l1 = true_entries l2 ->
  save_to_csv l1 f append fs = save_to_csv l2 f append fs
  /\ (true_entries l1 = [] ->
      save_to_csv l1 f false fs = (Returned, <[f := stored_header]> fs)).
Proof.
  intros H1 H2 Heq.
  assert (forall la lb a, la ≠ [] -> lb ≠ [] -> true_entries la = true_entries lb ->
            save_to_csv la f a fs = save_to_csv lb f a fs) as Hsame.
  { intros la lb a Ha Hb Hab. unfold save_to_csv.
    destruct la as [|ea la]; [done |]. destruct lb as [|eb lb]; [done |].
    by rewrite (write_rows_true_entries (ea :: la)),
         (write_rows_true_entries (eb :: lb)), Hab. }
  split; [by apply Hsame |].
  intros Hnone. rewrite (Hsame l1 [None] false) by done.
  rewrite (save_to_csv_fresh [None] f false fs);
    [| done | by repeat constructor | by left].
  change (records [None]) with (@nil product_record).
  cbn [map concat]. by rewrite app_nil_r.
Qed.

Lemma save_to_csv_skips_false_entries_witness :
  save_to_csv [None; Some (sample_record "A"); Some ∅] "out.csv" false ∅
  = save_to_csv [Some (sample_record "A")] "out.csv" false ∅.
Proof.
  apply (save_to_csv_skips_false_entries
           [None; Some (sample_record "A"); Some ∅] [Some (sample_record "A")]).
  - discriminate.
  - discriminate.
  - vm_compute. reflexivity.
Defined.

(** X10. A record with a key that is not one of the 14 columns, or with a
    surrogate in the value of a column, makes [save_to_csv] raise (a
    ValueError of the writer, a UnicodeEncodeError of the file): the file
    is left with what was written before that record (the header or the
    old content, and the rows of the records before it, which are records
    the writer accepts), still with the writer's CR LF line ends; the
    records after it are not written and the cleaning pass is not run. *)
Theorem save_to_csv_raises_at_bad_record
    (pre post : list (option product_record)) (bad : product_record)
    (f : string) (fs : filesystem) :
  all_writable pre -> bad ≠ ∅ ->
  ~ dom bad ⊆ (list_to_set FIELDNAMES : gset string)
  \/ (exists key value c,
        key ∈ FIELDNAMES /\ bad !! key = Some value /\ c ∈ value
        /\ encodable c = false) ->
  save_to_csv (pre ++ Some bad :: post) f false fs
  = (Raised,
     <[f := writeheader FIELDNAMES ++ concat (map raw_row (records pre))]> fs)
  /\ (forall old, fs !! f = Some old ->
        save_to_csv (pre ++ Some bad :: post) f true fs
        = (Raised, <[f := old ++ concat (map raw_row (records pre))]> fs)).
Proof.
  intros Hpre Hne Hbad. apply save_to_csv_bad_record; [done | done |].
  destruct Hbad as [Hdom | (key & value & c & Hkey & Hvalue & Hc & Henc)].
  - by apply writerow_foreign_key.
  - by eapply writerow_unencodable.
Qed.

Lemma save_to_csv_raises_at_bad_record_witness :
  save_to_csv [Some (sample_record "A"); Some {[ "Price" := u "1" ]};
               Some (sample_record "B")] "out.csv" false ∅
  = (Raised, {[ "out.csv" := writeheader FIELDNAMES ++ raw_row (sample_record "A") ]})
  /\ save_to_csv [Some (sample_record "A"); Some {[ "Name" := [97; 55296; 98] ]};
                  Some (sample_record "B")] "out.csv" false ∅
     = (Raised, {[ "out.csv" := writeheader FIELDNAMES ++ raw_row (sample_record "A") ]}).
Proof.
  split.
  - destruct (save_to_csv_raises_at_bad_record
                [Some (sample_record "A")] [Some (sample_record "B")]
                {[ "Price" := u "1" ]} "out.csv" ∅) as [Hraise _].
    + constructor; [|constructor]. intros r [= <-]. apply sample_record_writable.
    + intros Hempty. apply (f_equal (fun m => m !! "Price")) in Hempty.
      rewrite lookup_singleton_eq in Hempty. discriminate.
    + left. intros Hsub. rewrite dom_singleton_L in Hsub.
      apply singleton_subseteq_l, elem_of_list_to_set in Hsub.
      vm_compute in Hsub.
      repeat (apply elem_of_cons in Hsub as [Hsub | Hsub]; [discriminate |]).
      by apply not_elem_of_nil in Hsub.
    + cbn [app] in Hraise. rewrite Hraise. f_equal.
  - destruct (save_to_csv_raises_at_bad_record
                [Some (sample_record "A")] [Some (sample_record "B")]
                {[ "Name" := [97; 55296; 98] ]} "out.csv" ∅) as [Hraise _].
    + constructor; [|constructor]. intros r [= <-]. apply sample_record_writable.
    + intros Hempty. apply (f_equal (fun m => m !! "Name")) in Hempty.
      rewrite lookup_singleton_eq in Hempty. discriminate.
    + right. exists "Name", [97; 55296; 98], 55296.
      split; [|split; [apply lookup_singleton_eq | split; [|reflexivity]]].
      * unfold FIELDNAMES. do 2 apply list_elem_of_further. apply list_elem_of_here.
      * apply list_elem_of_further, list_elem_of_here.
    + cbn [app] in Hraise. rewrite Hraise. f_equal.
Defined.

Lemma save_to_csv_returned (l : list (option product_record)) (f : string)
    (append : bool) (fs fs' : filesystem) :
  l ≠ [] -> save_to_csv l f append fs = (Returned, fs') ->
  exists written,
    fs' = <[f := List.filter not_ascii_quote (universal_newlines written)]> fs.
Proof.
  intros Hne. unfold save_to_csv. destruct l as [|entry l]; [done |].
  destruct (write_rows _ _) as [written ok]. destruct ok; [|discriminate].
  intros [= <-]. exists written.
  erewrite clean_csv_file_content by apply lookup_insert_eq.
  by rewrite insert_insert_eq.
Qed.

(** X11. Whenever [save_to_csv] returns after writing, the whole file, the
    content an older file held before an append included, has no ASCII
    double quote, no ASCII apostrophe and no carriage return. *)
Theorem save_to_csv_output_has_no_ascii_quote
    (l : list (option product_record)) (f : string) (append : bool)
    (fs fs' : filesystem) :
  l ≠ [] -> save_to_csv l f append fs = (Returned, fs') ->
  exists content,
    fs' !! f = Some content
    /\ Forall (fun c => c ≠ DQUOTE /\ c ≠ APOSTROPHE /\ c ≠ CR) content.
Proof.
  intros Hne Hsave.
  destruct (save_to_csv_returned _ _ _ _ _ Hne Hsave) as [written ->].
  eexists. split; [apply lookup_insert_eq |].
  apply Forall_forall. intros c Hc.
  pose proof (filter_Forall not_ascii_quote (universal_newlines written)) as Hq.
  pose proof (Forall_filter_bool _ not_ascii_quote _ (un_no_cr written)) as Hcr.
  rewrite Forall_forall in Hq, Hcr. specialize (Hq c Hc). specialize (Hcr c Hc).
  unfold not_ascii_quote in Hq.
  rewrite andb_true_iff, !negb_true_iff, !N.eqb_neq in Hq. tauto.
Qed.

Lemma save_to_csv_output_has_no_ascii_quote_witness :
  exists content,
    (save_to_csv [Some quoted_record] "out.csv" true
       {[ "out.csv" := [DQUOTE; 97; CR; LF] ]}).2 !! "out.csv" = Some content
    /\ Forall (fun c => c ≠ DQUOTE /\ c ≠ APOSTROPHE /\ c ≠ CR) content.
Proof.
  apply (save_to_csv_output_has_no_ascii_quote
           [Some quoted_record] "out.csv" true {[ "out.csv" := [DQUOTE; 97; CR; LF] ]}).
  - discriminate.
  - rewrite (save_to_csv_append _ _ _ [DQUOTE; 97; CR; LF]).
    + reflexivity.
    + discriminate.
    + constructor; [|constructor]. intros r [= <-]. apply quoted_record_writable.
    + apply lookup_singleton_eq.
Defined.

(** X12. The cleaning pass has nothing left to do after a save: running
    [clean_csv_file] or [clean_existing_csv] on the file [save_to_csv] has
    just written leaves every file as it is. *)
Theorem clean_after_save_changes_nothing
    (l : list (option product_record)) (f : string) (append : bool)
    (fs fs' : filesystem) :
  l ≠ [] -> save_to_csv l f append fs = (Returned, fs') ->
  clean_csv_file f fs' = fs' /\ clean_existing_csv f fs' = fs'
  /\ CleanCsv.clean_csv_file f fs' = fs'.
Proof.
  intros Hne Hsave.
  destruct (save_to_csv_returned _ _ _ _ _ Hne Hsave) as [written ->].
  assert (clean_csv_file f
            (<[f := List.filter not_ascii_quote (universal_newlines written)]> fs)
          = <[f := List.filter not_ascii_quote (universal_newlines written)]> fs)
    as Hclean.
  { erewrite clean_csv_file_content by apply lookup_insert_eq.
    by rewrite cleaned_text_fixpoint, insert_insert_eq. }
  split; [exact Hclean |]. split; [by rewrite clean_existing_csv_eq | exact Hclean].
Qed.

Lemma clean_after_save_changes_nothing_witness :
  clean_csv_file "out.csv" (save_to_csv [Some quoted_record] "out.csv" false ∅).2
  = (save_to_csv [Some quoted_record] "out.csv" false ∅).2.
Proof.
  apply (clean_after_save_changes_nothing [Some quoted_record] "out.csv" false ∅).
  - discriminate.
  - rewrite (save_to_csv_fresh [Some quoted_record] "out.csv" false ∅).
    + reflexivity.
    + discriminate.
    + constructor; [|constructor]. intros r [= <-]. apply quoted_record_writable.
    + by left.
Defined.

(** *** Plain values *)

Lemma plain_remove_quotes (value : pystr) : plain value -> remove_quotes value = value.
Proof.
  intros Hv. rewrite remove_quotes_filter. apply filter_id.
  eapply Forall_impl; [exact Hv |]. intros c (Hesc & Hap & _). cbv beta.
  unfold not_ascii_quote, needs_escape in *.
  apply N.eqb_neq in Hap. rewrite Hap.
  by destruct (c =? DQUOTE); [destruct (c =? SEMICOLON), (c =? BACKSLASH) |].
Qed.

Lemma plain_csv_field (value : pystr) : plain value -> csv_field value = value.
Proof.
  unfold csv_field. induction 1 as [|c value [Hesc _] Hvalue IH]; [done |].
  cbn [flat_map]. by rewrite Hesc, IH.
Qed.

Lemma plain_no_cr (value : pystr) : plain value -> Forall (fun c => c ≠ CR) value.
Proof.
  intros Hv. eapply Forall_impl; [exact Hv |]. intros c [Hesc _] ->. discriminate.
Qed.

Lemma plain_encodable (value : pystr) : plain value -> forallb encodable value = true.
Proof.
  intros Hv. apply forallb_Forall. eapply Forall_impl; [exact Hv |].
  by intros c (_ & _ & Henc).
Qed.

(** X13. A record that is not empty, whose keys are column names and whose
    values are plain (no semicolon, backslash, quote or line break, and no
    surrogate, which the file could not encode) is written verbatim:
    [save_to_csv] returns, and the row in the file is the 14 values in
    column order, missing ones empty, joined by semicolons and ended by
    LF. *)
Theorem plain_record_written_verbatim (r : product_record) (f : string)
    (fs : filesystem) :
  well_keyed r -> (forall key value, r !! key = Some value -> plain value) ->
  stored_row r
  = join [SEMICOLON] (map (fun key => get r key []) FIELDNAMES) ++ [LF]
  /\ save_to_csv [Some r] f false fs
     = (Returned,
        <[f := stored_header
               ++ join [SEMICOLON] (map (fun key => get r key []) FIELDNAMES)
               ++ [LF]]> fs).
Proof.
  intros Hkeys Hplain.
  assert (writable r) as Hr.
  { split; [done |]. intros key value Hkey. by eapply plain_encodable, Hplain. }
  assert (forall key, plain (get r key [])) as Hget.
  { intros key. unfold get. destruct (r !! key) as [value|] eqn:Hk; [|constructor].
    by eapply Hplain. }
  assert (stored_row r
          = join [SEMICOLON] (map (fun key => get r key []) FIELDNAMES) ++ [LF])
    as Hrow.
  { unfold stored_row, raw_row, csv_row, LINETERMINATOR.
    assert (map csv_field
              (map (fun key => get (clean_product_data r) key []) FIELDNAMES)
            = map (fun key => get r key []) FIELDNAMES) as ->.
    { rewrite map_map. apply map_ext. intros key.
      assert (get (clean_product_data r) key [] = remove_quotes (get r key [])) as ->.
      { unfold get, clean_product_data. rewrite lookup_fmap.
        by destruct (r !! key). }
      by rewrite plain_remove_quotes, plain_csv_field. }
    rewrite un_app_no_cr; [done |].
    apply Forall_join; [by repeat constructor |].
    apply Forall_forall. intros v Hv.
    apply list_elem_of_In, in_map_iff in Hv as (key & <- & _).
    apply plain_no_cr, Hget. }
  split; [exact Hrow |].
  rewrite (save_to_csv_fresh [Some r] f false fs).
  - change (records [Some r]) with [r].
    cbn [map concat]. by rewrite app_nil_r, Hrow.
  - discriminate.
  - constructor; [|constructor]. by intros r' [= <-].
  - by left.
Qed.

Lemma plain_record_written_verbatim_witness :
  stored_row (sample_record "Dress")
  = u "https://x/p;1;Dress;;;;;;;;;;id2;" ++ [LF].
Proof.
  destruct (plain_record_written_verbatim (sample_record "Dress") "out.csv" ∅)
    as [Hrow _].
  - apply sample_record_writable.
  - intros key value Hk. unfold sample_record in Hk.
    apply (elem_of_map_to_list' _ (key, value)) in Hk. vm_compute in Hk.
    repeat (apply elem_of_cons in Hk as [[= -> ->] | Hk];
            [repeat constructor; discriminate |]).
    by apply not_elem_of_nil in Hk.
  - rewrite Hrow. reflexivity.
Defined.

(** ** Reading the links *)

Lemma lstrip_head (s : pystr) (c : N) :
  head (lstrip s) = Some c -> isspace c = false.
Proof.
  induction s as [|x s IH]; [done |]. cbn [lstrip].
  destruct (isspace x) eqn:Hx; [exact IH |]. by intros [= <-].
Qed.

Lemma lstrip_fixed (s : pystr) :
  (forall c, head s = Some c -> isspace c = false) -> lstrip s = s.
Proof.
  destruct s as [|x s]; [done |]. intros Hs. cbn [lstrip].
  by rewrite (Hs x eq_refl).
Qed.

Lemma lstrip_suffix (s : pystr) : exists blanks, s = blanks ++ lstrip s.
Proof.
  induction s as [|x s [blanks IH]]; [by exists [] |]. cbn [lstrip].
  destruct (isspace x); [|by exists []].
  exists (x :: blanks). cbn. by rewrite <- IH.
Qed.

Lemma strip_infix (s : pystr) : exists a b, s = a ++ strip s ++ b.
Proof.
  unfold strip. destruct (lstrip_suffix s) as [a Ha].
  destruct (lstrip_suffix (rev (lstrip s))) as [b Hb].
  exists a, (rev b). rewrite <- rev_app_distr, <- Hb, rev_involutive. exact Ha.
Qed.

Lemma last_rev_head (l : pystr) : last (rev l) = head l.
Proof. destruct l as [|x l]; [done |]. cbn [rev]. apply last_snoc. Qed.

Lemma strip_last (s : pystr) (c : N) :
  last (strip s) = Some c -> isspace c = false.
Proof.
  unfold strip. rewrite last_rev_head. apply lstrip_head.
Qed.

Lemma strip_head (s : pystr) (c : N) :
  head (strip s) = Some c -> isspace c = false.
Proof.
  unfold strip. destruct (lstrip_suffix (rev (lstrip s))) as [b Hb].
  intros Hc. apply (lstrip_head s).
  apply (f_equal (@rev N)) in Hb. rewrite rev_involutive, rev_app_distr in Hb.
  rewrite Hb. destruct (rev (lstrip (rev (lstrip s)))); [done |]. exact Hc.
Qed.

Lemma strip_idempotent (s : pystr) : strip (strip s) = strip s.
Proof.
  pose proof (strip_head s) as Hhead.
  unfold strip at 1. rewrite (lstrip_fixed (strip s)) by done.
  unfold strip. rewrite rev_involutive.
  rewrite (lstrip_fixed (lstrip _)) by apply lstrip_head. done.
Qed.

Lemma split_lines_lf_last (t line p q : pystr) :
  line ∈ split_lines t -> line = p ++ LF :: q -> q = [].
Proof.
  revert line p q. induction t as [|c t IH]; intros line p q; cbn [split_lines].
  { by intros Hin%not_elem_of_nil. }
  destruct (c =? LF) eqn:Hc.
  - apply N.eqb_eq in Hc as ->. intros [-> | Hin]%elem_of_cons; [|by apply IH].
    destruct p as [|x p]; [by intros [= <-] |].
    intros [= _ Hp]. by destruct p.
  - apply N.eqb_neq in Hc.
    destruct (split_lines t) as [|l ls] eqn:Ht.
    + intros ->%list_elem_of_singleton. destruct p as [|x p]; [by intros [= ?] |].
      intros [= _ Hp]. by destruct p.
    + intros [-> | Hin]%elem_of_cons.
      * destruct p as [|x p]; [by intros [= ?] |].
        intros [= _ Hl]. eapply (IH l p q); [by left | done].
      * apply IH. by right.
Qed.

Lemma strip_line_no_lf (t line : pystr) :
  line ∈ split_lines t -> Forall (fun c => c ≠ LF) (strip line).
Proof.
  intros Hin. apply Forall_forall. intros c Hc ->.
  apply list_elem_of_split in Hc as (x & y & Hxy).
  destruct (strip_infix line) as (a & b & Hline).
  rewrite Hxy in Hline.
  assert (line = (a ++ x) ++ LF :: (y ++ b)) as Hline'
    by (rewrite Hline, <- !app_assoc; done).
  apply (split_lines_lf_last _ _ _ _ Hin) in Hline'.
  apply app_eq_nil in Hline' as [-> _].
  pose proof (strip_last line LF) as Hlast. rewrite Hxy, last_snoc in Hlast.
  by specialize (Hlast eq_refl).
Qed.

Lemma strip_Forall (P : N -> Prop) (s : pystr) :
  Forall P s -> Forall P (strip s).
Proof.
  intros Hs. destruct (strip_infix s) as (a & b & Hab). rewrite Hab in Hs.
  by apply Forall_app in Hs as [_ [Hs _]%Forall_app].
Qed.

Lemma read_links_from_file_links_clean (links_file : string) (fs : filesystem) :
  read_links_from_file links_file (delete links_file fs) = []
  /\ Forall (fun link =>
               link ≠ [] /\ startswith link (u "#") = false
               /\ strip link = link
               /\ Forall (fun c => c ≠ LF /\ c ≠ CR) link)
            (read_links_from_file links_file fs).
Proof.
  unfold read_links_from_file. rewrite lookup_delete_eq. split; [done |].
  destruct (fs !! links_file) as [content|]; [|constructor].
  apply Forall_forall. intros link Hlink.
  apply list_elem_of_In, List.filter_In in Hlink as [Hin Hkeep].
  apply andb_true_iff in Hkeep as [Htruthy Hcomment].
  apply negb_true_iff in Hcomment.
  apply in_map_iff in Hin as (line & <- & Hline%list_elem_of_In).
  split; [by destruct (strip line) |]. split; [done |].
  split; [apply strip_idempotent |].
  unfold readlines in Hline.
  pose proof (strip_line_no_lf _ _ Hline) as Hlf.
  assert (Forall (fun c => c ≠ CR) (strip line)) as Hcr.
  { apply strip_Forall. pose proof (un_no_cr content) as Hun.
    rewrite <- (concat_split_lines (universal_newlines content)) in Hun.
    rewrite Forall_concat, Forall_forall in Hun. by apply Hun. }
  rewrite Forall_forall in Hlf, Hcr. apply Forall_forall. intros c Hc.
  split; [by apply Hlf | by apply Hcr].
Qed.

(** X14. The links read from the links file are never empty, never start
    with the comment sign, carry no blank at either end and no line break
    inside; a missing file gives no link. *)
Theorem read_links_from_file_gives_clean_links (links_file : string)
    (fs : filesystem) :
  read_links_from_file links_file (delete links_file fs) = []
  /\ Forall (fun link =>
               link ≠ [] /\ startswith link (u "#") = false
               /\ strip link = link
               /\ Forall (fun c => c ≠ LF /\ c ≠ CR) link)
            (read_links_from_file links_file fs).
Proof. apply read_links_from_file_links_clean. Qed.

(** ** The driver and the script *)

Lemma links_file_not_output : "links.txt" ≠ OUTPUT_FILE.
Proof. discriminate. Qed.

Lemma read_links_insert_output (fs : filesystem) (old : pystr) :
  read_links_from_file "links.txt" (<[OUTPUT_FILE := old]> fs)
  = read_links_from_file "links.txt" fs.
Proof.
  unfold read_links_from_file. by rewrite lookup_insert_ne by discriminate.
Qed.

Lemma clean_stored_file (f : string) (l : list product_record) (fs : filesystem) :
  clean_csv_file f (<[f := stored_header ++ concat (map stored_row l)]> fs)
  = <[f := stored_header ++ concat (map stored_row l)]> fs.
Proof.
  erewrite clean_csv_file_content by apply lookup_insert_eq.
  rewrite un_id by apply stored_file_clean.
  by rewrite cleaned_stored_file, insert_insert_eq.
Qed.

Lemma clean_after_save (l : list (option product_record)) (f : string)
    (append : bool) (fs fs' : filesystem) :
  l ≠ [] -> save_to_csv l f append fs = (Returned, fs') ->
  clean_csv_file f fs' = fs'.
Proof.
  intros Hne Hsave.
  destruct (save_to_csv_returned _ _ _ _ _ Hne Hsave) as [written ->].
  erewrite clean_csv_file_content by apply lookup_insert_eq.
  by rewrite cleaned_text_fixpoint, insert_insert_eq.
Qed.

Lemma main_outcome_of_toy_links :
  exists fs1,
    @main toy_externals {[ "links.txt" := toy_links_file ]} 0%nat
    = (Returned, fs1, 2%nat).
Proof.
  destruct toy_links_processed as (r1 & r4 & Hloop & -> & ->).
  eexists. eapply (@main_nonempty toy_externals); [| exact Hloop |].
  - vm_compute. reflexivity.
  - cbn. repeat constructor; apply record14_encodable;
      repeat constructor; apply u_encodable.
Qed.

Lemma save_to_csv_overwrite (l : list (option product_record)) (f : string)
    (old : pystr) (fs : filesystem) :
  l ≠ [] ->
  save_to_csv l f false (<[f := old]> fs) = save_to_csv l f false fs.
Proof.
  intros Hne. unfold save_to_csv. destruct l as [|entry l]; [done |].
  rewrite !andb_false_r. cbn [andb negb].
  destruct (write_rows _ _) as [written ok]. by rewrite insert_insert_eq.
Qed.

Lemma save_to_csv_returns_iff (l : list (option product_record)) (f : string)
    (append : bool) (fs : filesystem) :
  Forall (fun entry => forall r, entry = Some r -> well_keyed r) l ->
  (save_to_csv l f append fs).1 = Returned
  <-> Forall encodable_record (records l).
Proof.
  intros Hl. unfold save_to_csv. destruct l as [|entry l].
  { split; [constructor | done]. }
  match goal with
  | |- context [write_rows ?l0 ?opened] =>
      pose proof (write_rows_flag l0 opened Hl) as Hflag;
      destruct (write_rows l0 opened) as [written ok]
  end.
  cbn [snd] in Hflag. rewrite <- Hflag. by destruct ok.
Qed.

Section DriverProperties.
Context `{Externals}.

(** An entry that the loop has collected is what [process_link] returned
    for its link, whether the loop came to its end or not. *)
Lemma process_links_entry (links : list pystr) (w : world) (i : nat)
    (url : pystr) (entry : option product_record) :
  links !! i = Some url ->
  (process_links links w).1.1 !! i = Some entry ->
  exists wi wi', process_link url wi = (Ret entry, wi').
Proof.
  revert w i. induction links as [|url0 rest IH]; intros w i Hi; [done |].
  destruct (process_link url0 w) as [[e|] w1] eqn:Hp.
  - rewrite (process_links_cons_ret _ _ _ _ _ Hp). cbn [fst].
    destruct i as [|i].
    + injection Hi as ->. intros [= <-]. by exists w, w1.
    + apply IH. exact Hi.
  - by rewrite (process_links_cons_exn _ _ _ _ Hp).
Qed.

(** X15. [main] touches no file but the output file, whatever the links
    file and the outside world are and whether it returns or raises.  It
    returns exactly when no exception leaves the loop over the links and
    UTF-8 can encode every record collected; when an exception leaves the
    loop, no file is written at all. *)
Theorem main_outcome_and_other_files (fs : filesystem) (w : world) :
  let loop := process_links (read_links_from_file "links.txt" fs) w in
  delete OUTPUT_FILE (main fs w).1.2 = delete OUTPUT_FILE fs
  /\ (main fs w).1.2 !! "links.txt" = fs !! "links.txt"
  /\ ((main fs w).1.1 = Returned
      <-> loop.1.2 = Returned /\ Forall encodable_record (records loop.1.1))
  /\ (loop.1.2 = Raised -> main fs w = (Raised, fs, loop.2)).
Proof.
  cbv zeta.
  assert (forall fs' : filesystem,
             delete OUTPUT_FILE fs' = delete OUTPUT_FILE fs ->
             fs' !! "links.txt" = fs !! "links.txt") as Hother.
  { intros fs' Hdel.
    rewrite <- (lookup_delete_ne fs' OUTPUT_FILE "links.txt") by discriminate.
    rewrite Hdel. by rewrite lookup_delete_ne by discriminate. }
  destruct (read_links_from_file "links.txt" fs) as [|url rest] eqn:Hlinks.
  { rewrite (main_no_links _ _ Hlinks). cbn. by repeat split. }
  pose proof (process_links_well_keyed (url :: rest) w) as Hkeys.
  destruct (process_links (url :: rest) w) as [[all_products o] w'] eqn:Hloop.
  cbn [fst snd] in *. destruct o.
  - rewrite (main_saves _ _ _ _ _ _ Hlinks Hloop). cbn [fst snd].
    pose proof (save_to_csv_frame all_products OUTPUT_FILE false fs) as Hframe.
    split; [exact Hframe |]. split; [by apply Hother |].
    split; [|done].
    rewrite (save_to_csv_returns_iff _ _ _ _ Hkeys). tauto.
  - rewrite (main_raised _ _ _ _ _ Hlinks Hloop). cbn [fst snd].
    repeat split; try done. by intros [? _].
Qed.

(** X16. With at least one link and no exception leaving the loop over the
    links, [main] overwrites the output file: what the file held before
    has no influence on the result, whether the writing succeeds or not.
    When an exception leaves the loop, the old file stays as it was. *)
Theorem main_overwrites_output (fs : filesystem) (w : world) (old : pystr) :
  let loop := process_links (read_links_from_file "links.txt" fs) w in
  read_links_from_file "links.txt" fs ≠ [] ->
  (loop.1.2 = Returned -> main (<[OUTPUT_FILE := old]> fs) w = main fs w)
  /\ (loop.1.2 = Raised ->
      main (<[OUTPUT_FILE := old]> fs) w
      = (Raised, <[OUTPUT_FILE := old]> fs, loop.2)).
Proof.
  cbv zeta. intros Hne.
  destruct (read_links_from_file "links.txt" fs) as [|url rest] eqn:Hlinks; [done |].
  pose proof (read_links_insert_output fs old) as Hlinks'. rewrite Hlinks in Hlinks'.
  destruct (process_links (url :: rest) w) as [[all_products o] w'] eqn:Hloop.
  cbn [fst snd]. split; intros ->.
  - rewrite (main_saves fs _ _ _ _ _ Hlinks Hloop).
    rewrite (main_saves (<[OUTPUT_FILE := old]> fs) _ _ _ _ _ Hlinks' Hloop).
    rewrite save_to_csv_overwrite; [done |].
    apply process_links_length in Hloop. by destruct all_products.
  - by rewrite (main_raised _ _ _ _ _ Hlinks' Hloop).
Qed.

(** X17. Every record [main] collects carries, in its URL column, the link
    it was read for, and has the 14 columns. *)
Theorem main_records_carry_their_links (fs : filesystem) (w : world)
    (i : nat) (url : pystr) (r : product_record) :
  read_links_from_file "links.txt" fs !! i = Some url ->
  (process_links (read_links_from_file "links.txt" fs) w).1.1 !! i
  = Some (Some r) ->
  r !! "URL" = Some url /\ dom r = list_to_set FIELDNAMES.
Proof.
  intros Hi Hr.
  assert (url ≠ []) as Hurl.
  { apply list_elem_of_lookup_2 in Hi.
    destruct (read_links_from_file_links_clean "links.txt" fs) as [_ Hall].
    rewrite Forall_forall in Hall. by apply Hall. }
  destruct (process_links_entry _ _ _ _ _ Hi Hr) as (wi & wi' & Hp).
  split; [by eapply process_link_url | by eapply process_link_dom].
Qed.

(** X18. The script, for every argument list: it runs the clean mode when
    there is a first argument and it is clean, whatever follows, and
    [main] in every other case.  The clean mode goes to no network and
    only cleans the output file; run after a default run that had links
    and returned, it changes nothing. *)
Theorem script_clean_after_run_changes_nothing
    (argv : list pystr) (fs : filesystem) (w : world) :
  script argv fs w
  = match argv with
    | _ :: argument :: _ =>
        if bool_decide (argument = u "clean")
        then (Returned, clean_csv_file OUTPUT_FILE fs, w)
        else main fs w
    | _ => main fs w
    end
  /\ (forall fs1 w1,
        read_links_from_file "links.txt" fs ≠ [] ->
        main fs w = (Returned, fs1, w1) ->
        forall prog more,
          script (prog :: u "clean" :: more) fs1 w1 = (Returned, fs1, w1)).
Proof.
  assert (forall argv0 fs0 w0,
            script argv0 fs0 w0
            = match argv0 with
              | _ :: argument :: _ =>
                  if bool_decide (argument = u "clean")
                  then (Returned, clean_csv_file OUTPUT_FILE fs0, w0)
                  else main fs0 w0
              | _ => main fs0 w0
              end) as Hscript.
  { intros argv0 fs0 w0. unfold script.
    destruct argv0 as [|prog [|argument more]]; [done | done |].
    cbn [length Nat.ltb Nat.leb nth andb].
    destruct (bool_decide (argument = u "clean")); [|done].
    by rewrite clean_existing_csv_eq. }
  split; [apply Hscript |].
  intros fs1 w1 Hne Hmain prog more. rewrite Hscript.
  rewrite bool_decide_eq_true_2 by done. do 2 f_equal.
  destruct (read_links_from_file "links.txt" fs) as [|url rest] eqn:Hlinks; [done |].
  destruct (process_links (url :: rest) w) as [[all_products o] w'] eqn:Hloop.
  destruct o; [|by rewrite (main_raised _ _ _ _ _ Hlinks Hloop) in Hmain].
  rewrite (main_saves _ _ _ _ _ _ Hlinks Hloop) in Hmain.
  destruct (save_to_csv all_products OUTPUT_FILE false fs) as [o fs'] eqn:Hsave.
  cbn [fst snd] in Hmain. injection Hmain as -> -> ->.
  eapply clean_after_save; [|exact Hsave].
  apply process_links_length in Hloop. by destruct all_products.
Qed.

(** X19. [parse_html_file] gives nothing for a missing file; a page that
    the HTML parser rejects raises, with or without data block; a page
    that the parser accepts gives nothing when it holds no data block, and
    otherwise a record with the 14 columns whose URL is the one of the
    saved-from marker of the page, else the href of its canonical link,
    else empty. *)
Theorem parse_html_file_outcome (path : string) (fs : filesystem) (w : world) :
  parse_html_file path (delete path fs) w = (Ret None, w)
  /\ match fs !! path with
     | None => parse_html_file path fs w = (Ret None, w)
     | Some content =>
         let page := universal_newlines content in
         match BeautifulSoup page with
         | None => parse_html_file path fs w = (Exn, w)
         | Some sp =>
             match re_search KIWI_RE page with
             | None => parse_html_file path fs w = (Ret None, w)
             | Some _ =>
                 exists r w',
                   parse_html_file path fs w = (Ret (Some r), w')
                   /\ dom r = list_to_set FIELDNAMES
                   /\ r !! "URL"
                      = Some match re_search SAVED_URL_RE page with
                             | Some url_match => group url_match 1
                             | None =>
                                 match soup_find sp "link" "rel" "canonical" with
                                 | Some canonical =>
                                     default [] (tag_get canonical "href")
                                 | None => []
                                 end
                             end
             end
         end
     end.
Proof.
  unfold parse_html_file. rewrite lookup_delete_eq. split; [done |].
  destruct (fs !! path) as [content|]; [|done]. cbv zeta.
  destruct (BeautifulSoup (universal_newlines content)) as [sp|] eqn:Hsp;
    [|by apply extract_product_data_rejected].
  destruct (re_search KIWI_RE (universal_newlines content)) as [k|] eqn:Hk.
  - eexists _, _. split; [by eapply extract_product_data_eq |].
    split; [apply process_kiwi_data_dom |].
    by rewrite process_kiwi_data_eq.
  - unfold extract_product_data. by rewrite Hsp, Hk.
Qed.

End DriverProperties.

Lemma main_overwrites_output_witness :
  @main toy_externals
    (<[OUTPUT_FILE := u "old"]> {[ "links.txt" := toy_links_file ]}) 0%nat
  = @main toy_externals {[ "links.txt" := toy_links_file ]} 0%nat.
Proof.
  assert (read_links_from_file "links.txt"
            ({[ "links.txt" := toy_links_file ]} : filesystem) = toy_links)
    as Hlinks by (vm_compute; reflexivity).
  destruct (@main_overwrites_output toy_externals
              {[ "links.txt" := toy_links_file ]} 0%nat (u "old")) as [Hsame _].
  - rewrite Hlinks. discriminate.
  - apply Hsame. rewrite Hlinks.
    destruct toy_links_processed as (r1 & r4 & -> & _). reflexivity.
Defined.

Lemma main_records_carry_their_links_witness :
  exists r,
    (@process_links toy_externals toy_links 0%nat).1.1 !! 3%nat = Some (Some r)
    /\ r !! "URL" = Some (u "https://ok/4").
Proof.
  destruct ((@process_links toy_externals toy_links 0%nat).1.1 !! 3%nat)
    as [[r|]|] eqn:Hr; [|vm_compute in Hr; discriminate..].
  exists r. split; [reflexivity |].
  apply (@main_records_carry_their_links toy_externals
           {[ "links.txt" := toy_links_file ]} 0%nat 3%nat (u "https://ok/4") r).
  - vm_compute. reflexivity.
  - rewrite <- Hr. f_equal.
Defined.

Lemma script_clean_after_run_changes_nothing_witness :
  exists fs1 w1,
    @main toy_externals {[ "links.txt" := toy_links_file ]} 0%nat
    = (Returned, fs1, w1)
    /\ @script toy_externals [u "parser.py"; u "clean"] fs1 w1
       = (Returned, fs1, w1).
Proof.
  assert (read_links_from_file "links.txt"
            ({[ "links.txt" := toy_links_file ]} : filesystem) = toy_links)
    as Hlinks by (vm_compute; reflexivity).
  destruct (@main_outcome_of_toy_links) as (fs1 & Hmain).
  exists fs1, 2%nat. split; [exact Hmain |].
  destruct (@script_clean_after_run_changes_nothing toy_externals [u "parser.py"]
              {[ "links.txt" := toy_links_file ]} 0%nat) as [_ Hclean].
  apply (Hclean fs1 2%nat); [|exact Hmain].
  rewrite Hlinks. discriminate.
Defined.
